(** * Range-header test server: a shallow embedding of [server/main.go]
      and of the probes of [client/main.go]

    The development follows the Go source function by function.  Go
    strings are byte strings and are modelled by [string]; [[]byte] is
    [list byte]; [int64] and [uint64] values are integers of [Z] with the
    wrap-around of every arithmetic operation written out; the header and
    query maps are finite maps from strings to lists of strings.  Writes to
    standard output ([fmt.Println]) are not part of a response and are left
    out. *)

From Stdlib Require Import ZArith Lia String Ascii List Bool.
From Stdlib.Strings Require Import Byte.
From stdpp Require Import base numbers strings list gmap pretty.

Open Scope string_scope.
Open Scope Z_scope.

(** ** Machine integers *)

Module GoInt.

Definition uint64 (z : Z) : Z := z mod 2 ^ 64.

Definition int64 (z : Z) : Z := (z + 2 ^ 63) mod 2 ^ 64 - 2 ^ 63.

Definition maxUint64 : Z := 2 ^ 64 - 1.

Definition maxInt64 : Z := 2 ^ 63 - 1.

Definition minInt64 : Z := - 2 ^ 63.

End GoInt.
Export GoInt.

(** ** Results, panics *)

Inductive outcome (A : Type) : Type :=
| Returned (a : A)
| Panicked (msg : string).
Arguments Returned {A} a.
Arguments Panicked {A} msg.

#[global] Instance outcome_ret : MRet outcome := λ A a, Returned a.

#[global] Instance outcome_bind : MBind outcome := λ A B k m,
  match m with
  | Returned a => k a
  | Panicked msg => Panicked msg
  end.

(** ** The parts of the Go standard library the server calls *)

Module GoStrings.

Definition byteOf (c : ascii) : Z := Z.of_N (N_of_ascii c).

(** [strings.HasPrefix] *)
Definition HasPrefix (s p : string) : bool := String.prefix p s.

(** [s[n:]] for [n <= len(s)]; the server takes it only behind a
    [HasPrefix] test. *)
Fixpoint sliceFrom (n : nat) (s : string) : string :=
  match n, s with
  | O, _ => s
  | S n', String _ r => sliceFrom n' r
  | S _, EmptyString => EmptyString
  end.

(** [strings.Split(s, sep)] for a separator of one byte, which is the
    only way the server calls it. The result is never empty: an input
    without separator comes back as its only element. *)
Fixpoint Split (s : string) (sep : ascii) : list string :=
  match s with
  | EmptyString => [EmptyString]
  | String c r =>
      if Ascii.eqb c sep then EmptyString :: Split r sep
      else match Split r sep with
           | t :: ts => String c t :: ts
           | [] => [String c EmptyString]
           end
  end.

(** The table [asciiSpace] of package strings. *)
Definition asciiSpace (c : ascii) : bool :=
  let b := byteOf c in
  (b =? 9) || (b =? 10) || (b =? 11) || (b =? 12) || (b =? 13) || (b =? 32).

(** [unicode.IsSpace] on the runes above U+007F, by their UTF-8
    encodings: U+0085 and U+00A0 take two bytes; U+1680, U+2000 to U+200A,
    U+2028, U+2029, U+202F, U+205F and U+3000 take three. *)
Definition space2 (c1 c2 : ascii) : bool :=
  (byteOf c1 =? 194) && ((byteOf c2 =? 133) || (byteOf c2 =? 160)).

Definition space3 (c1 c2 c3 : ascii) : bool :=
  let b1 := byteOf c1 in
  let b2 := byteOf c2 in
  let b3 := byteOf c3 in
  ((b1 =? 225) && (b2 =? 154) && (b3 =? 128))
  || ((b1 =? 226) && (b2 =? 128)
      && (((128 <=? b3) && (b3 <=? 138)) || (b3 =? 168) || (b3 =? 169) || (b3 =? 175)))
  || ((b1 =? 226) && (b2 =? 129) && (b3 =? 159))
  || ((b1 =? 227) && (b2 =? 128) && (b3 =? 128)).

(** Drops the white space runes at the front.  [fwd] tells the byte
    order of a multi-byte rune: the string is read front to back when
    [true], and is a reversed string when [false]. *)
Fixpoint trimFront (fwd : bool) (s : string) : string :=
  match s with
  | EmptyString => EmptyString
  | String c1 r1 =>
      if asciiSpace c1 then trimFront fwd r1
      else match r1 with
           | EmptyString => s
           | String c2 r2 =>
               if (if fwd then space2 c1 c2 else space2 c2 c1) then trimFront fwd r2
               else match r2 with
                    | EmptyString => s
                    | String c3 r3 =>
                        if (if fwd then space3 c1 c2 c3 else space3 c3 c2 c1)
                        then trimFront fwd r3
                        else s
                    end
           end
  end.

(** [strings.TrimSpace]: leading, then trailing white space is cut. *)
Definition TrimSpace (s : string) : string :=
  String.rev (trimFront false (String.rev (trimFront true s))).

End GoStrings.

Module Strconv.

Import GoStrings.

Inductive errKind : Type := ErrSyntax | ErrRange.

(** [*strconv.NumError] *)
Record NumError : Type := mkNumError {
  Func : string;
  Num : string;
  Err : errKind
}.

Inductive result (A : Type) : Type :=
| Ok (a : A)
| Failed (e : NumError).
Arguments Ok {A} a.
Arguments Failed {A} e.

Definition syntaxError (fn str : string) : NumError := mkNumError fn str ErrSyntax.
Definition rangeError (fn str : string) : NumError := mkNumError fn str ErrRange.

Definition fnParseUint : string := "ParseUint".

(** [lower(c)] of package strconv: [c | ('x' - 'X')]. *)
Definition lower (c : Z) : Z := Z.lor c 32.

(** The cutoff of base 10: the least [n] with [n * 10 > maxUint64]. *)
Definition cutoff : Z := maxUint64 / 10 + 1.

(** The digit loop of [ParseUint(s0, 10, 64)], [n] being the value read
    so far. *)
Fixpoint parseDigits (s0 : string) (s : string) (n : Z) : result Z :=
  match s with
  | EmptyString => Ok n
  | String ch r =>
      let c := byteOf ch in
      let d :=
        if (48 <=? c) && (c <=? 57) then Some (c - 48)
        else if (97 <=? lower c) && (lower c <=? 122) then Some (lower c - 97 + 10)
        else None in
      match d with
      | None => Failed (syntaxError fnParseUint s0)
      | Some d =>
          if d >=? 10 then Failed (syntaxError fnParseUint s0)
          else if n >=? cutoff then Failed (rangeError fnParseUint s0)
          else
            let n10 := uint64 (n * 10) in
            let n1 := uint64 (n10 + d) in
            if (n1 <? n10) || (n1 >? maxUint64) then Failed (rangeError fnParseUint s0)
            else parseDigits s0 r n1
      end
  end.

(** [strconv.ParseUint(s, 10, 64)] *)
Definition ParseUint (s : string) : result Z :=
  match s with
  | EmptyString => Failed (syntaxError fnParseUint s)
  | _ => parseDigits s s 0
  end.

(** [strconv.FormatInt(z, 10)], which is also what the verb [%d] of
    package fmt prints. *)
Definition FormatInt (z : Z) : string := pretty z.

End Strconv.

Module Http.

Import GoStrings.

Definition StatusOK : Z := 200.
Definition StatusPartialContent : Z := 206.
Definition StatusBadRequest : Z := 400.
Definition StatusInternalServerError : Z := 500.

Definition MethodGet : string := "GET".

(** The token bytes of a header field name (package textproto). *)
Definition validHeaderFieldByte (ch : ascii) : bool :=
  let c := byteOf ch in
  ((48 <=? c) && (c <=? 57)) || ((65 <=? c) && (c <=? 90)) || ((97 <=? c) && (c <=? 122))
  || (c =? 33) || ((35 <=? c) && (c <=? 39)) || (c =? 42) || (c =? 43) || (c =? 45)
  || (c =? 46) || ((94 <=? c) && (c <=? 96)) || (c =? 124) || (c =? 126).

Fixpoint allValid (s : string) : bool :=
  match s with
  | EmptyString => true
  | String c r => validHeaderFieldByte c && allValid r
  end.

Fixpoint canonicalLoop (upper : bool) (s : string) : string :=
  match s with
  | EmptyString => EmptyString
  | String ch r =>
      let c := byteOf ch in
      let c' :=
        if upper && (97 <=? c) && (c <=? 122) then c - 32
        else if negb upper && (65 <=? c) && (c <=? 90) then c + 32
        else c in
      String (ascii_of_N (Z.to_N c')) (canonicalLoop (c' =? 45) r)
  end.

(** [textproto.CanonicalMIMEHeaderKey]: a key with a byte that is no
    token byte is left as it is; otherwise the first letter and every
    letter after a hyphen are put in upper case, the others in lower
    case. *)
Definition CanonicalMIMEHeaderKey (s : string) : string :=
  if allValid s then canonicalLoop true s else s.

(** [http.Header] and [url.Values] are both [map[string][]string]. *)
Abbreviation Header := (gmap string (list string)).
Abbreviation Values := (gmap string (list string)).

(** [Header.Get]: the first value under the canonical form of the key. *)
Definition Header_Get (h : Header) (key : string) : string :=
  match h !! CanonicalMIMEHeaderKey key with
  | Some (v :: _) => v
  | _ => EmptyString
  end.

(** [Header.Add] *)
Definition Header_Add (h : Header) (key value : string) : Header :=
  let k := CanonicalMIMEHeaderKey key in
  <[k := (default [] (h !! k) ++ [value])%list]> h.

(** [Values.Get]: the first value under the key as it is written. *)
Definition Values_Get (v : Values) (key : string) : string :=
  match v !! key with
  | Some (x :: _) => x
  | _ => EmptyString
  end.

(** What the handler reads of a [*http.Request]: the method, the header
    map and the parsed query of the URL ([req.URL.Query()]). *)
Record Request : Type := mkRequest {
  Method : string;
  ReqHeader : Header;
  URLQuery : Values
}.

(** The state behind an [http.ResponseWriter]: the header map the
    handler edits, and what went on the wire.  [WriteHeader] sends the
    status line with the header map as it is at that moment; a second
    call changes nothing. *)
Record ResponseWriter : Type := mkWriter {
  handlerHeader : Header;
  wroteHeader : bool;
  status : Z;
  sentHeader : Header;
  written : list byte
}.

Definition newWriter : ResponseWriter := mkWriter ∅ false 0 ∅ [].

Definition AddHeader (key value : string) (w : ResponseWriter) : ResponseWriter :=
  mkWriter (Header_Add (handlerHeader w) key value)
           (wroteHeader w) (status w) (sentHeader w) (written w).

Definition WriteHeader (code : Z) (w : ResponseWriter) : ResponseWriter :=
  if wroteHeader w then w
  else mkWriter (handlerHeader w) true code (handlerHeader w) (written w).

(** [w.Write(b)]: an implicit [WriteHeader(200)] when no status was
    sent, then the bytes; it reports how many bytes it wrote and, in
    this model of a healthy connection, no failure. *)
Definition Write (b : list byte) (w : ResponseWriter) : ResponseWriter * Z * bool :=
  let w := WriteHeader StatusOK w in
  (mkWriter (handlerHeader w) (wroteHeader w) (status w) (sentHeader w) (written w ++ b)%list,
   Z.of_nat (length b), false).

(** The response a client receives once the handler returned. *)
Record Response : Type := mkResponse {
  StatusCode : Z;
  RespHeader : Header;
  Body : list byte
}.

Definition finish (w : ResponseWriter) : Response :=
  let w := WriteHeader StatusOK w in
  mkResponse (status w) (sentHeader w) (written w).

End Http.

(** ** The server *)

Module Server.

Import GoStrings Strconv Http.

(** The values of Go's [error] that occur: the two package-level
    sentinels and the failure of [strconv.ParseUint]. *)
Inductive error : Type :=
| errInvalidRange
| errInvalidRangeStr
| errNum (e : NumError).

Definition offsetAndLenFromRange (rngStr : string) (contentSize : Z)
  : Z * Z * option error :=
  if String.eqb rngStr "" then (-1, -1, None)
  else if negb (HasPrefix rngStr "bytes=") then (-1, -1, Some errInvalidRangeStr)
  else
    match Split (sliceFrom 6 rngStr) "-" with
    | [t0; t1] =>
        if String.eqb t0 "" then
          match ParseUint (TrimSpace t1) with
          | Failed _ => (-1, -1, Some errInvalidRangeStr)
          | Ok length => (int64 (contentSize - int64 length), int64 length, None)
          end
        else if String.eqb t1 "" then
          match ParseUint (TrimSpace t0) with
          | Failed e => (-1, -1, Some (errNum e))
          | Ok offset => (int64 offset, int64 (int64 contentSize - int64 offset), None)
          end
        else
          match ParseUint (TrimSpace t0) with
          | Failed e => (-1, -1, Some (errNum e))
          | Ok start =>
              match ParseUint (TrimSpace t1) with
              | Failed e => (-1, -1, Some (errNum e))
              | Ok end_ => (int64 start, int64 (int64 (uint64 (end_ - start)) + 1), None)
              end
          end
    | _ => (-1, -1, Some errInvalidRangeStr)
    end.

Inductive Mutex : Type := mkMutex.

Record inMemContents : Type := mkContents {
  mu : Mutex;
  contents : list byte
}.

Definition text : string := "
platea dictumst quisque sagittis purus sit amet volutpat consequat mauris nunc congue nisi vitae suscipit tellus mauris a diam maecenas sed enim ut sem viverra aliquet eget sit amet tellus cras adipiscing enim eu turpis egestas pretium aenean pharetra magna ac placerat vestibulum lectus mauris ultrices eros in cursus turpis massa tincidunt dui ut ornare lectus sit amet est placerat in egestas erat imperdiet sed euismod nisi porta lorem mollis aliquam ut porttitor leo a diam sollicitudin tempor id eu nisl nunc mi ipsum faucibus vitae aliquet nec ullamcorper sit amet risus nullam eget felis eget nunc lobortis mattis aliquam faucibus purus in massa tempor nec feugiat nisl pretium fusce id velit ut tortor pretium viverra suspendisse potenti nullam ac tortor vitae purus faucibus ornare suspendisse sed nisi lacus sed viverra tellus in hac habitasse platea dictumst vestibulum rhoncus est pellentesque elit ullamcorper dignissim cras tincidunt lobortis feugiat vivamus at augue eget arcu dictum varius duis at consectetur lorem donec massa sapien faucibus et molestie ac feugiat sed lectus vestibulum mattis ullamcorper velit sed ullamcorper morbi tincidunt ornare massa eget egestas purus viverra accumsan in nisl nisi scelerisque eu ultrices vitae auctor eu augue ut lectus arcu bibendum at varius vel pharetra vel turpis nunc eget lorem dolor sed viverra ipsum nunc aliquet bibendum enim facilisis gravida neque convallis a cras semper auctor neque vitae tempus quam pellentesque nec nam aliquam sem et tortor consequat id porta nibh venenatis cras sed felis eget velit aliquet sagittis id consectetur purus ut faucibus pulvinar elementum integer enim neque volutpat ac tincidunt vitae semper quis lectus nulla at volutpat diam ut venenatis tellus in metus vulputate eu scelerisque felis imperdiet proi fermentum leo vel orci porta non pulvinar neque laoreet suspendisse interdum consectetur libero id faucibus nisl tincidunt eget nullam non nisi est sit amet facilisis magna etiam tempor orci eu lobortis elementum nibh tellus molestie nunc non blandit massa enim nec dui nunc mattis enim ut tellus elementum sagittis vitae et leo duis ut diam quam nulla porttitor massa id neque aliquam vestibulum morbi blandit cursus risus at ultrices mi tempus imperdiet nulla malesuada pellentesque elit eget gravida cum sociis natoque penatibus et magnis dis parturient montes nascetur ridiculus mus mauris vitae ultricies leo integer malesuada nunc vel risus commodo viverra maecenas accumsan lacus vel facilisis volutpat est velit egestas dui id ornare arcu odio ut sem nulla pharetra diam sit amet nisl suscipit adipiscing bibendum est ultricies integer quis auctor elit sed vulputate mi sit amet mauris commodo quis imperdiet massa tincidunt nunc pulvinar sapien et ligula ullamcorper malesuada proin libero nunc consequat interdum varius sit amet mattis vulputate enim nulla aliquet porttitor lacus luctus accumsan tortor posuere ac ut consequat semper viverra nam libero justo laoreet sit amet cursus sit amet dictum sit amet justo donec enim diam vulputate ut pharetra sit amet aliquam id diam maecenas ultricies mi eget mauris pharetra et ultrices neque ornare aenean euismod elementum nisi quis eleifend quam adipiscing vitae proin sagittis nisl rhoncus mattis rhoncus urna neque viverra justo nec ultrices dui sapien eget mi proin sed libero enim sed faucibus turpis in eu mi bibendum neque egestas congue quisque egestas diam in arcu cursus euismod quis viverra nibh cras pulvinar mattis nunc sed blandit libero volutpat sed cras ornare arcu dui vivamus arcu felis bibendum ut tristique et egestas quis ipsum suspendisse ultrices gravida dictum fusce ut placerat orci nulla pellentesque dignissim enim sit amet venenatis urna cursus eget nunc scelerisque viverra mauris in aliquam sem fringilla ut morbi tincidunt augue interdum velit euismod in pellentesque massa placerat duis ultricies lacus sed turpis tincidunt id aliquet risus feugiat in ante metus dictum at tempor commodo ullamcorp
".

Definition newContents : inMemContents :=
  mkContents mkMutex (list_byte_of_string text).

Definition Len (c : inMemContents) : Z := int64 (Z.of_nat (length (contents c))).

Definition ReadAll (c : inMemContents) : list byte := contents c.

(** The slice expression [b[lo:hi]]; outside [0 <= lo <= hi <= len(b)]
    the Go runtime panics. *)
Definition sliceBytes (b : list byte) (lo hi : Z) : outcome (list byte) :=
  if (0 <=? lo) && (lo <=? hi) && (hi <=? Z.of_nat (length b))
  then Returned (take (Z.to_nat (hi - lo)) (drop (Z.to_nat lo) b))
  else Panicked "slice bounds out of range".

Definition ReadRange (c : inMemContents) (start end_ : Z)
  : outcome (list byte * option error) :=
  if (end_ <? start) || (end_ >? Len c) || (start <? 0)
  then Returned ([], Some errInvalidRange)
  else b ← sliceBytes (contents c) start end_; Returned (b, None).

Definition writeContentRange (w : ResponseWriter) (c : inMemContents)
    (rangeStr : string) (vbs : bool) : outcome ResponseWriter :=
  let '(offset, length, err) := offsetAndLenFromRange rangeStr (int64 (Len c)) in
  match err with
  | Some _ => Returned (WriteHeader StatusBadRequest w)
  | None =>
      r ← ReadRange c offset (int64 (offset + length));
      match r with
      | (_, Some _) => Returned (WriteHeader StatusBadRequest w)
      | (b, None) =>
          let contentRange :=
            "bytes " +:+ FormatInt offset +:+ "-"
              +:+ FormatInt (int64 (int64 (offset + length) - 1)) +:+ "/"
              +:+ FormatInt (Len c) in
          let contentLength := FormatInt length in
          let statusCode := StatusPartialContent in
          let w := AddHeader "Content-Range" contentRange w in
          let w := AddHeader "Content-Length" contentLength w in
          let w := WriteHeader statusCode w in
          let '(w, n, failed) := Write b w in
          let w := if failed then WriteHeader StatusInternalServerError w else w in
          if negb (int64 n =? length) then
            Panicked ("failed to write partial contents: wrote " +:+ FormatInt n
                        +:+ " of " +:+ FormatInt length)
          else Returned w
      end
  end.

Definition serveContents (w : ResponseWriter) (req : Request)
    (c : inMemContents) (vbs : bool) : outcome ResponseWriter :=
  if negb (String.eqb (Method req) MethodGet) then
    let w := WriteHeader StatusBadRequest w in
    let '(w, _, _) := Write (list_byte_of_string "only GET requests supported.") w in
    Returned w
  else
    let w := AddHeader "Accept-Ranges" "bytes" w in
    let rangeHeader := Header_Get (ReqHeader req) "Range" in
    let rangeHeader :=
      if String.eqb rangeHeader "" then Header_Get (ReqHeader req) "range"
      else rangeHeader in
    if negb (String.eqb rangeHeader "") then writeContentRange w c rangeHeader vbs
    else
      let xRangeHeader := Header_Get (ReqHeader req) "X-Dolt-Range" in
      let xRangeHeader :=
        if String.eqb xRangeHeader "" then Header_Get (ReqHeader req) "x-dolt-range"
        else xRangeHeader in
      if negb (String.eqb xRangeHeader "") then writeContentRange w c xRangeHeader vbs
      else
        let rangeParam := Values_Get (URLQuery req) "Range" in
        let rangeParam :=
          if String.eqb rangeParam "" then Values_Get (URLQuery req) "range"
          else rangeParam in
        if negb (String.eqb rangeParam "") then writeContentRange w c rangeParam vbs
        else
          let b := ReadAll c in
          let w := AddHeader "Content-Length" (FormatInt (Len c)) w in
          let w := WriteHeader StatusOK w in
          let '(w, n, failed) := Write b w in
          if failed then Panicked "write failed"
          else if negb (int64 n =? Len c) then Panicked "failed to write all contents"
          else Returned w.

(** What net/http does around a handler: the handler runs on the
    connection's writer and, when it returns, the response is complete.
    A handler that panics sends no complete response. *)
Definition handle (w : ResponseWriter) (c : inMemContents) (vbs : bool)
    (req : Request) : outcome Response :=
  w' ← serveContents w req c vbs; Returned (finish w').

(** The writer the handler of [getHttpServer] passes on unchanged
    ([tls = false]), and the one the handler of [getHttpsServer] passes on
    after adding its header ([tls = true]). *)
Definition connWriter (tls : bool) : ResponseWriter :=
  if tls
  then AddHeader "Strict-Transport-Security" "max-age=63072000; includeSubDomains" newWriter
  else newWriter.

(** The handler of [getHttpServer]: a fresh store for every request. *)
Definition httpHandler (vbs : bool) (req : Request) : outcome Response :=
  handle (connWriter false) newContents vbs req.

(** The handler of [getHttpsServer] *)
Definition httpsHandler (vbs : bool) (req : Request) : outcome Response :=
  handle (connWriter true) newContents vbs req.

End Server.

(** ** Vocabulary of the specification *)

Module Spec.

Import GoStrings Strconv Http Server.

(** DIGITS of the grammar: a string of decimal digits, and its value. *)
Definition isDigit (c : ascii) : bool := (48 <=? byteOf c) && (byteOf c <=? 57).

Fixpoint allChars (P : ascii → bool) (s : string) : bool :=
  match s with
  | EmptyString => true
  | String c r => P c && allChars P r
  end.

Abbreviation allDigits := (allChars isDigit).

Definition isDIGITS (s : string) : bool := negb (String.eqb s "") && allDigits s.

Fixpoint valueFrom (n : Z) (s : string) : Z :=
  match s with
  | EmptyString => n
  | String c r => valueFrom (n * 10 + (byteOf c - 48)) r
  end.

Definition decimalValue (s : string) : Z := valueFrom 0 s.

(** A string of ASCII white space. *)
Abbreviation allSpace := (allChars asciiSpace).

(** A string without the separator of the two tokens. *)
Definition notDash (c : ascii) : bool := negb (Ascii.eqb c "-").
Abbreviation noDash := (allChars notDash).

(** A token is numeric when, white space around it apart, it is DIGITS. *)
Definition numericToken (t : string) : bool := isDIGITS (TrimSpace t).

(** The specifier with the two tokens [t0] and [t1]: the full form
    ["bytes=A-B"], the open-prefix form ["bytes=N-"] when [t1] is empty,
    the suffix form ["bytes=-N"] when [t0] is empty. *)
Definition specifier (t0 t1 : string) : string :=
  "bytes=" +:+ t0 +:+ String "-" t1.

(** The dispatcher in the words of the specification: the first
    non-empty of the header [Range], the header [X-Dolt-Range], the query
    parameter [Range], the query parameter [range]; the empty string tells
    that there is none. *)
Fixpoint firstNonEmpty (l : list string) : string :=
  match l with
  | [] => EmptyString
  | x :: r => if String.eqb x "" then firstNonEmpty r else x
  end.

Definition selectSpecifier (req : Request) : string :=
  firstNonEmpty [Header_Get (ReqHeader req) "Range";
                 Header_Get (ReqHeader req) "X-Dolt-Range";
                 Values_Get (URLQuery req) "Range";
                 Values_Get (URLQuery req) "range"].

(** The responder in the words of the specification, on the headers
    [h] set so far. *)
Definition badRequest (h : Header) : Response := mkResponse StatusBadRequest h [].

Definition fullContent (h : Header) (c : inMemContents) : Response :=
  mkResponse StatusOK (Header_Add h "Content-Length" (FormatInt (Len c))) (ReadAll c).

Definition partialContent (h : Header) (c : inMemContents) (offset length : Z)
  : Response :=
  let e := int64 (offset + length) in
  mkResponse StatusPartialContent
    (Header_Add
       (Header_Add h "Content-Range"
          ("bytes " +:+ FormatInt offset +:+ "-" +:+ FormatInt (int64 (e - 1))
             +:+ "/" +:+ FormatInt (Len c)))
       "Content-Length" (FormatInt length))
    (take (Z.to_nat (e - offset)) (drop (Z.to_nat offset) (contents c))).

Definition outOfRange (c : inMemContents) (start end_ : Z) : bool :=
  (end_ <? start) || (end_ >? Len c) || (start <? 0).

Definition rangeResponse (h : Header) (c : inMemContents) (s : string) : Response :=
  match offsetAndLenFromRange s (Len c) with
  | (offset, length, None) =>
      if outOfRange c offset (int64 (offset + length)) then badRequest h
      else partialContent h c offset length
  | (_, _, Some _) => badRequest h
  end.

Definition expectedResponse (h0 : Header) (c : inMemContents) (req : Request)
  : Response :=
  if negb (String.eqb (Method req) MethodGet)
  then mkResponse StatusBadRequest h0 (list_byte_of_string "only GET requests supported.")
  else
    let h := Header_Add h0 "Accept-Ranges" "bytes" in
    if String.eqb (selectSpecifier req) "" then fullContent h c
    else rangeResponse h c (selectSpecifier req).

(** The headers of a response once the server of the plain ([tls =
    false]) or of the TLS listener has accepted the method. *)
Definition acceptRanges (tls : bool) : Header :=
  Header_Add (handlerHeader (connWriter tls)) "Accept-Ranges" "bytes".

(** A GET request whose range specifier, the first non-empty of the
    channels, is [s]. *)
Definition carries (req : Request) (s : string) : Prop :=
  Method req = MethodGet ∧ selectSpecifier req = s.

(** What the client records of a response: status, the two headers of
    a range response, and the number of bytes of the body. *)
Definition summary (o : outcome Response) : option (Z * string * string * nat) :=
  match o with
  | Returned r =>
      Some (StatusCode r, Header_Get (RespHeader r) "Content-Range",
            Header_Get (RespHeader r) "Content-Length", length (Body r))
  | Panicked _ => None
  end.

End Spec.

(** ** Vocabulary for the rest of the server *)

Module Grammar.

Import GoStrings Strconv Http Server Spec.

(** A token the parser reads as a number: DIGITS within white space,
    with a value that fits 64 bits. *)
Definition asNumber (t : string) : bool :=
  isDIGITS (TrimSpace t) && (decimalValue (TrimSpace t) <=? maxUint64).

(** The pairs of tokens the parser accepts, by form. *)
Definition accepted (t0 t1 : string) : bool :=
  if String.eqb t0 "" then asNumber t1
  else if String.eqb t1 "" then asNumber t0
  else asNumber t0 && asNumber t1.

(** The length of a Go slice is an [int]: it is below [2^63]. *)
Definition fits (c : inMemContents) : Prop :=
  Z.of_nat (length (contents c)) < 2 ^ 63.

(** The window of [n] bytes from index [o] of the store. *)
Definition window (c : inMemContents) (o n : Z) : list byte :=
  take (Z.to_nat n) (drop (Z.to_nat o) (contents c)).

(** The text of a [Content-Range] header. *)
Definition contentRange (first last total : Z) : string :=
  "bytes " +:+ FormatInt first +:+ "-" +:+ FormatInt last +:+ "/" +:+ FormatInt total.

Definition notGetBody : list byte := list_byte_of_string "only GET requests supported.".

Definition hsts : string := "max-age=63072000; includeSubDomains".

End Grammar.

(** ** The client ([client/main.go]) *)

Module Client.

Import GoStrings Strconv Http.

Definition contentMax : Z := 4000.

Definition sampleRangeStart : string := "bytes=0-1000".
Definition sampleRangeMid : string := "bytes=2500-2599".
Definition sampleRangeEnd : string := "bytes=-80".

Definition sampleRanges : gmap string Z :=
  {[ sampleRangeStart := 1001; sampleRangeMid := 100; sampleRangeEnd := 80 ]}.

Definition sampleParamsStart : string := "range=bytes%3D0%2D1000".
Definition sampleParamsMid : string := "range=bytes%3D2500%2D2599".
Definition sampleParamsEnd : string := "range=bytes%3D%2D80".

Definition sampleParams : gmap string Z :=
  {[ sampleParamsStart := 1001; sampleParamsMid := 100; sampleParamsEnd := 80 ]}.

(** What the client puts into a [*http.Request]: method, URL as given to
    [http.NewRequest], header map. *)
Record ClientRequest : Type := mkClientRequest {
  cMethod : string;
  cURL : string;
  cHeader : Header
}.

(** The errors of the client. [errTransport] is whatever [client.Do] or
    the reading of the body reports. *)
Inductive clientError : Type :=
| errNewRequest (url : string)
| errParseHeader
| errUnsupportedHeader
| errTransport (msg : string).

(** [*http.Client]: [Do] sends a request over a network in state [N] and
    gives the response with its body read to the end, or fails. *)
Record HttpClient (N : Type) : Type := mkHttpClient {
  Do : ClientRequest → N → N * (Response + string)
}.
Arguments Do {N} _ _ _.
Arguments mkHttpClient {N} _.

(** The state the client acts on: the network, and the reports of a
    mismatch ([fmt.Printf] in [sendSamples]), one entry per call.  The echo
    of each request and response that [send] prints is left out. *)
Record world (N : Type) : Type := mkWorld {
  net : N;
  reports : list string
}.
Arguments mkWorld {N} _ _.
Arguments net {N} _.
Arguments reports {N} _.

Definition printf {N} (line : string) (w : world N) : world N :=
  mkWorld (net w) (reports w ++ [line])%list.

Section WithTransport.

Context {N : Type}.

(** Whether [http.NewRequest] takes the URL ([url.Parse] succeeds). *)
Variable urlOK : string → bool.

Variable client : HttpClient N.

Definition NewRequest (method url : string) : ClientRequest + clientError :=
  if urlOK url then inl (mkClientRequest method url ∅) else inr (errNewRequest url).

Definition send (req : ClientRequest) (vbs : bool) (w : world N)
  : world N * (Z * Z * option clientError) :=
  match Do client req (net w) with
  | (n, inl res) =>
      (mkWorld n (reports w), (StatusCode res, Z.of_nat (length (Body res)), None))
  | (n, inr e) => (mkWorld n (reports w), (0, 0, Some (errTransport e)))
  end.

Definition sendRaw (url : string) (vbs : bool) (w : world N)
  : world N * (Z * Z * option clientError) :=
  match NewRequest MethodGet url with
  | inr e => (w, (0, 0, Some e))
  | inl req => send req vbs w
  end.

Definition sendWithParams (url params : string) (vbs : bool) (w : world N)
  : world N * (Z * Z * option clientError) :=
  match NewRequest MethodGet (url +:+ "/?" +:+ params) with
  | inr e => (w, (0, 0, Some e))
  | inl req => send req vbs w
  end.

Definition supportedHeader (key : string) : bool :=
  String.eqb key "Range" || String.eqb key "range"
  || String.eqb key "x-dolt-range" || String.eqb key "X-Dolt-Range".

Definition sendWithHeader (url header : string) (vbs : bool) (w : world N)
  : world N * (Z * Z * option clientError) :=
  match NewRequest MethodGet url with
  | inr e => (w, (0, 0, Some e))
  | inl req =>
      match Split header ":" with
      | [p0; p1] =>
          let key := TrimSpace p0 in
          let value := TrimSpace p1 in
          if negb (supportedHeader key) then (w, (0, 0, Some errUnsupportedHeader))
          else
            let req := mkClientRequest (cMethod req) (cURL req)
                         (Header_Add (cHeader req) key value) in
            send req vbs w
      | _ => (w, (0, 0, Some errParseHeader))
      end
  end.

(** One of the three loops of [sendSamples] over a table: [arg] makes
    the header or the parameters of a key of the table, [sendOne] sends them,
    [what] is the word the reports use for them.  The loop ends at the first
    request that fails; a mismatch is reported and the loop goes on. *)
Fixpoint probeEach (arg : string → string)
    (sendOne : string → world N → world N * (Z * Z * option clientError))
    (what url : string) (entries : list (string * Z)) (w : world N)
  : world N * option clientError :=
  match entries with
  | [] => (w, None)
  | (key, expectedLen) :: rest =>
      let '(w, (actualStatus, actualLen, err)) := sendOne (arg key) w in
      match err with
      | Some e => (w, Some e)
      | None =>
          let w :=
            if negb (actualStatus =? StatusPartialContent) then
              printf ("did not receive expected status: url: " +:+ url +:+ " "
                        +:+ what +:+ ": " +:+ arg key
                        +:+ " expected: " +:+ FormatInt StatusPartialContent
                        +:+ " actual: " +:+ FormatInt actualStatus) w
            else w in
          let w :=
            if negb (actualLen =? expectedLen) then
              printf ("requested bytes did not match bytes served: url: " +:+ url +:+ " "
                        +:+ what +:+ ": " +:+ arg key
                        +:+ " requested: " +:+ FormatInt expectedLen
                        +:+ " served: " +:+ FormatInt actualLen) w
            else w in
          probeEach arg sendOne what url rest w
      end
  end.

(** [sendSamples].  Go leaves the order in which [range] visits a map
    open: [order1] and [order2] are the orders of the two loops over
    [sampleRanges], [order3] the order of the loop over [sampleParams]. *)
Definition sendSamples (order1 order2 order3 : list (string * Z))
    (url : string) (vbs : bool) (w : world N) : world N * option clientError :=
  match probeEach (λ headerBytes, "Range: " +:+ headerBytes)
          (λ header, sendWithHeader url header vbs) "header" url order1 w with
  | (w, Some e) => (w, Some e)
  | (w, None) =>
  match probeEach (λ headerBytes, "x-dolt-range: " +:+ headerBytes)
          (λ header, sendWithHeader url header vbs) "header" url order2 w with
  | (w, Some e) => (w, Some e)
  | (w, None) =>
  match probeEach (λ params, params)
          (λ params, sendWithParams url params vbs) "params" url order3 w with
  | (w, Some e) => (w, Some e)
  | (w, None) =>
      let '(w, (actualStatus, actualLen, err)) := sendRaw url vbs w in
      match err with
      | Some e => (w, Some e)
      | None =>
          let w :=
            if negb (actualStatus =? StatusOK) then
              printf ("did not receive expected status: url: " +:+ url
                        +:+ " expected: " +:+ FormatInt StatusOK
                        +:+ " actual: " +:+ FormatInt actualStatus) w
            else w in
          let w :=
            if negb (actualLen =? contentMax) then
              printf ("requested bytes did not match bytes served: url: " +:+ url
                        +:+ " requested: " +:+ FormatInt contentMax
                        +:+ " served: " +:+ FormatInt actualLen) w
            else w in
          (w, None)
      end
  end end end.

End WithTransport.

End Client.

(** ** The server behind a network that changes nothing *)

Module Network.

Import GoStrings Strconv Http Server Client.

(** [strings.Cut] at a separator of one byte. *)
Fixpoint Cut (s : string) (sep : ascii) : string * string * bool :=
  match s with
  | EmptyString => (EmptyString, EmptyString, false)
  | String c r =>
      if Ascii.eqb c sep then (EmptyString, r, true)
      else let '(before, after, found) := Cut r sep in (String c before, after, found)
  end.

Definition ishex (c : ascii) : bool :=
  let b := byteOf c in
  ((48 <=? b) && (b <=? 57)) || ((97 <=? b) && (b <=? 102)) || ((65 <=? b) && (b <=? 70)).

Definition unhex (c : ascii) : Z :=
  let b := byteOf c in
  if (48 <=? b) && (b <=? 57) then b - 48
  else if (97 <=? b) && (b <=? 102) then b - 97 + 10
  else if (65 <=? b) && (b <=? 70) then b - 65 + 10
  else 0.

(** [url.QueryUnescape]: [%XX] is the byte [XX], [+] is a space; a [%]
    without two hexadecimal digits after it is an error. *)
Fixpoint QueryUnescape (s : string) : option string :=
  match s with
  | EmptyString => Some EmptyString
  | String c r =>
      if Ascii.eqb c "%" then
        match r with
        | String h1 (String h2 r') =>
            if ishex h1 && ishex h2 then
              String (ascii_of_N (Z.to_N (Z.lor (Z.shiftl (unhex h1) 4) (unhex h2))))
                <$> QueryUnescape r'
            else None
        | _ => None
        end
      else if Ascii.eqb c "+" then String " " <$> QueryUnescape r
      else String c <$> QueryUnescape r
  end.

(** [strings.Contains] for one byte. *)
Fixpoint hasByte (b : ascii) (s : string) : bool :=
  match s with
  | EmptyString => false
  | String c r => Ascii.eqb c b || hasByte b r
  end.

(** The loop of [url.ParseQuery] over the pieces between ["&"]; a piece
    with a [";"], an empty piece and a piece that does not unescape are
    passed over ([URL.Query] drops the error). *)
Fixpoint parseQuery (m : Values) (pieces : list string) : Values :=
  match pieces with
  | [] => m
  | piece :: rest =>
      if hasByte ";" piece then parseQuery m rest
      else if String.eqb piece "" then parseQuery m rest
      else
        let '(key, value, _) := Cut piece "=" in
        match QueryUnescape key, QueryUnescape value with
        | Some key, Some value =>
            parseQuery (<[key := (default [] (m !! key) ++ [value])%list]> m) rest
        | _, _ => parseQuery m rest
        end
  end.

Definition ParseQuery (query : string) : Values := parseQuery ∅ (Split query "&").

(** The query of a URL as [url.Parse] takes it: what follows the first
    ["?"] of the part before the first ["#"]. *)
Definition rawQuery (url : string) : string :=
  let '(beforeFragment, _, _) := Cut url "#" in
  let '(_, query, _) := Cut beforeFragment "?" in
  query.

(** The request the handler sees when the network hands on method,
    header map and URL as the client made them. *)
Definition serverRequest (r : ClientRequest) : Request :=
  mkRequest (cMethod r) (cHeader r) (ParseQuery (rawQuery (cURL r))).

(** A middle box that may take the range headers or the query off a
    request. *)
Definition strip (headers query : bool) (r : Request) : Request :=
  mkRequest (Method r)
    (if headers then delete "Range" (delete "X-Dolt-Range" (ReqHeader r)) else ReqHeader r)
    (if query then ∅ else URLQuery r).

(** A client whose requests reach the handler [h] through the middle
    box; the state of the network is the list of the requests sent. *)
Definition through (headers query : bool) (h : Request → outcome Response)
  : HttpClient (list ClientRequest) :=
  mkHttpClient (λ r sent,
    ((sent ++ [r])%list,
     match h (strip headers query (serverRequest r)) with
     | Returned res => inl res
     | Panicked msg => inr msg
     end)).

Definition anyURL (url : string) : bool := true.

(** A base URL: scheme, host and port, without query or fragment. *)
Definition baseURL (url : string) : bool := negb (hasByte "?" url) && negb (hasByte "#" url).

(** The number of reports a probe adds for what [send] returned. *)
Definition mismatches (expectedStatus expectedLen : Z) (r : Z * Z * option clientError)
  : nat :=
  (if negb (r.1.1 =? expectedStatus) then 1%nat else 0%nat)
  + (if negb (r.1.2 =? expectedLen) then 1%nat else 0%nat).

(** What [send] returns for a response. *)
Definition seen (res : Response) : Z * Z * option clientError :=
  (StatusCode res, Z.of_nat (length (Body res)), None).

End Network.

Import GoStrings Strconv Http Server Spec Grammar Client Network.

(** ** Machine integers *)

Lemma int64_range z : - 2 ^ 63 <= int64 z < 2 ^ 63.
Proof. unfold int64. pose proof (Z.mod_pos_bound (z + 2 ^ 63) (2 ^ 64)). lia. Qed.

Lemma int64_small z : - 2 ^ 63 <= z < 2 ^ 63 → int64 z = z.
Proof. intros H. unfold int64. rewrite Z.mod_small; lia. Qed.

Lemma int64_idem z : int64 (int64 z) = int64 z.
Proof. apply int64_small, int64_range. Qed.

Lemma uint64_small z : 0 <= z < 2 ^ 64 → uint64 z = z.
Proof. intros H. unfold uint64. apply Z.mod_small; lia. Qed.

Lemma int64_congr z : ∃ k, int64 z = z + k * 2 ^ 64.
Proof.
  unfold int64. exists (- ((z + 2 ^ 63) / 2 ^ 64)).
  pose proof (Z.div_mod (z + 2 ^ 63) (2 ^ 64)). lia.
Qed.

Lemma uint64_congr z : ∃ k, uint64 z = z + k * 2 ^ 64.
Proof.
  unfold uint64. exists (- (z / 2 ^ 64)).
  pose proof (Z.div_mod z (2 ^ 64)). lia.
Qed.

(** Two 64-bit values that agree modulo [2 ^ 64] are equal. *)
Lemma int64_unique a b k :
  - 2 ^ 63 <= a < 2 ^ 63 → - 2 ^ 63 <= b < 2 ^ 63 → a = b + k * 2 ^ 64 → a = b.
Proof. intros Ha Hb E. assert (k = 0) by lia. subst k. lia. Qed.

Lemma int64_nonneg_le z : 0 <= z → int64 z <= z.
Proof.
  intros Hz. destruct (int64_congr z) as [k Hk]. pose proof (int64_range z).
  assert (k <= 0) by lia. nia.
Qed.

(** ** Decimal digits and [ParseUint] *)

Lemma isDigit_byte c : isDigit c = true → 0 <= byteOf c - 48 <= 9.
Proof. unfold isDigit. intros H. apply andb_true_iff in H. lia. Qed.

Lemma valueFrom_ge s : ∀ n, 0 <= n → allDigits s = true → n <= valueFrom n s.
Proof.
  induction s as [|c r IH]; intros n Hn Hd; cbn [valueFrom allChars] in *; [lia|].
  apply andb_true_iff in Hd as [Hc Hr]. apply isDigit_byte in Hc.
  specialize (IH (n * 10 + (byteOf c - 48)) ltac:(lia) Hr). lia.
Qed.

Lemma decimalValue_nonneg s : allDigits s = true → 0 <= decimalValue s.
Proof. intros H. apply (valueFrom_ge s 0); [lia|done]. Qed.

Lemma parseDigits_digits s0 s : ∀ n,
  0 <= n < 2 ^ 64 → allDigits s = true →
  parseDigits s0 s n =
    if valueFrom n s <=? maxUint64 then Ok (valueFrom n s)
    else Failed (rangeError fnParseUint s0).
Proof.
  induction s as [|c r IH]; intros n Hn Hd.
  - simpl. unfold maxUint64. destruct (Z.leb_spec n (2 ^ 64 - 1)); [done|lia].
  - simpl in Hd. apply andb_true_iff in Hd as [Hc Hr].
    pose proof (isDigit_byte _ Hc) as Hb. unfold isDigit in Hc.
    cbn [parseDigits valueFrom]. rewrite Hc.
    destruct (Z.geb_spec (byteOf c - 48) 10) as [?|_]; [lia|].
    pose proof (valueFrom_ge r (n * 10 + (byteOf c - 48)) ltac:(lia) Hr) as Hge.
    unfold cutoff, maxUint64 in *.
    change ((2 ^ 64 - 1) / 10 + 1) with 1844674407370955162.
    destruct (Z.geb_spec n 1844674407370955162) as [Hcut|Hcut].
    { destruct (Z.leb_spec (valueFrom (n * 10 + (byteOf c - 48)) r) (2 ^ 64 - 1)); [lia|done]. }
    rewrite (uint64_small (n * 10)) by lia.
    destruct (Z_lt_dec (n * 10 + (byteOf c - 48)) (2 ^ 64)) as [Hfit|Hfit].
    + rewrite (uint64_small (n * 10 + (byteOf c - 48))) by lia.
      destruct (Z.ltb_spec (n * 10 + (byteOf c - 48)) (n * 10)) as [?|_]; [lia|].
      destruct (Z.gtb_spec (n * 10 + (byteOf c - 48)) (2 ^ 64 - 1)) as [?|_]; [lia|].
      simpl. apply IH; [lia|done].
    + assert (uint64 (n * 10 + (byteOf c - 48)) = n * 10 + (byteOf c - 48) - 2 ^ 64) as ->.
      { unfold uint64. symmetry. apply (Z.mod_unique _ _ 1); lia. }
      destruct (Z.ltb_spec (n * 10 + (byteOf c - 48) - 2 ^ 64) (n * 10)) as [_|?]; [|lia].
      simpl.
      destruct (Z.leb_spec (valueFrom (n * 10 + (byteOf c - 48)) r) (2 ^ 64 - 1)); [lia|done].
Qed.

Lemma ParseUint_digits s :
  isDIGITS s = true →
  ParseUint s =
    if decimalValue s <=? maxUint64 then Ok (decimalValue s)
    else Failed (rangeError fnParseUint s).
Proof.
  unfold isDIGITS. intros H. apply andb_true_iff in H as [Hne Hd].
  destruct s as [|c r]; [done|].
  unfold ParseUint, decimalValue. apply parseDigits_digits; [lia|done].
Qed.

Lemma ParseUint_value s n : ParseUint s = Ok n → 0 <= n < 2 ^ 64.
Proof.
  assert (G : ∀ s0 s n m, 0 <= n < 2 ^ 64 → parseDigits s0 s n = Ok m → 0 <= m < 2 ^ 64).
  { clear. intros s0 s. induction s as [|c r IH]; intros n m Hn; simpl.
    - intros [= <-]. done.
    - destruct (_ : option Z) as [d|]; [|done].
      destruct (d >=? 10); [done|]. destruct (n >=? cutoff); [done|].
      destruct (_ || _); [done|].
      apply IH. unfold uint64. apply Z.mod_pos_bound. lia. }
  destruct s; [done|]. unfold ParseUint. apply G. lia.
Qed.

(** Anything but DIGITS is refused. *)
Lemma parseDigits_not_digits s0 s : ∀ n,
  allDigits s = false → ∃ e, parseDigits s0 s n = Failed e.
Proof.
  induction s as [|c r IH]; intros n Hd; [done|].
  simpl in Hd. cbn [parseDigits]. fold (isDigit c).
  destruct (isDigit c) eqn:Hc; simpl in Hd.
  - pose proof (isDigit_byte _ Hc).
    destruct (Z.geb_spec (byteOf c - 48) 10); [lia|].
    destruct (_ >=? cutoff); [eauto|]. destruct (_ || _); [eauto|]. by apply IH.
  - destruct (_ && _) eqn:Hl.
    + apply andb_true_iff in Hl as [Hl _].
      destruct (Z.geb_spec (lower (byteOf c) - 97 + 10) 10); [eauto|lia].
    + eauto.
Qed.

Lemma ParseUint_not_digits s : isDIGITS s = false → ∃ e, ParseUint s = Failed e.
Proof.
  unfold isDIGITS. destruct s as [|c r]; [eauto|]. simpl String.eqb. simpl negb.
  rewrite andb_true_l. intros H. unfold ParseUint. by apply parseDigits_not_digits.
Qed.

(** ** Strings: reversal, splitting, trimming *)

Lemma app_cons x (a b : string) : String x a +:+ b = String x (a +:+ b).
Proof. reflexivity. Qed.

Lemma app_nil (b : string) : "" +:+ b = b.
Proof. reflexivity. Qed.

Ltac unfold_app := rewrite ?app_cons, ?app_nil.

Lemma app_assoc_string (a b c : string) : (a +:+ b) +:+ c = a +:+ (b +:+ c).
Proof. induction a as [|x a IH]; unfold_app; [done|by rewrite IH]. Qed.

Lemma app_empty_r (a : string) : a +:+ "" = a.
Proof. induction a as [|x a IH]; unfold_app; [done|by rewrite IH]. Qed.

Lemma rev_app_spec s1 : ∀ s2, String.rev_app s1 s2 = String.rev s1 +:+ s2.
Proof.
  unfold String.rev. induction s1 as [|x s1 IH]; intros s2; simpl; [done|].
  rewrite (IH (String x "")), (IH (String x s2)), app_assoc_string. done.
Qed.

Lemma rev_cons x s : String.rev (String x s) = String.rev s +:+ String x "".
Proof. unfold String.rev at 1. simpl. apply rev_app_spec. Qed.

Lemma rev_app_distr_string a : ∀ b, String.rev (a +:+ b) = String.rev b +:+ String.rev a.
Proof.
  induction a as [|x a IH]; intros b; unfold_app.
  - by rewrite app_empty_r.
  - by rewrite !rev_cons, IH, app_assoc_string.
Qed.

Lemma rev_involutive_string s : String.rev (String.rev s) = s.
Proof.
  induction s as [|x s IH]; [done|].
  by rewrite rev_cons, rev_app_distr_string, IH.
Qed.

Lemma allChars_app P a b : allChars P (a +:+ b) = allChars P a && allChars P b.
Proof. induction a as [|x a IH]; unfold_app; simpl; [done|]. by rewrite IH, andb_assoc. Qed.

Lemma allChars_rev P s : allChars P (String.rev s) = allChars P s.
Proof.
  induction s as [|x s IH]; [done|].
  rewrite rev_cons, allChars_app, IH. simpl. rewrite andb_true_r. apply andb_comm.
Qed.

Lemma allChars_impl (P Q : ascii → bool) s :
  (∀ c, P c = true → Q c = true) → allChars P s = true → allChars Q s = true.
Proof.
  intros HPQ. induction s as [|x s IH]; simpl; [done|].
  intros H. apply andb_true_iff in H as [Hx Hs]. rewrite (HPQ _ Hx), IH; done.
Qed.

Lemma byteOf_range c : 0 <= byteOf c < 256.
Proof. unfold byteOf. pose proof (N_ascii_bounded c). lia. Qed.

Lemma byteOf_inj c d : byteOf c = byteOf d → c = d.
Proof.
  unfold byteOf. intros H. apply N2Z.inj in H.
  rewrite <- (ascii_N_embedding c), <- (ascii_N_embedding d). by rewrite H.
Qed.

Lemma digit_notDash c : isDigit c = true → notDash c = true.
Proof.
  intros H. unfold notDash.
  destruct (Ascii.eqb_spec c "-") as [->|]; [|done]. by vm_compute in H.
Qed.

Lemma space_notDash c : asciiSpace c = true → notDash c = true.
Proof.
  unfold notDash. destruct (Ascii.eqb_spec c "-") as [->|]; [|done]. by vm_compute.
Qed.

Lemma digit_not_space c : isDigit c = true → asciiSpace c = false.
Proof.
  intros H. apply isDigit_byte in H. unfold asciiSpace.
  repeat match goal with |- context [?a =? ?b] => destruct (Z.eqb_spec a b); [lia|] end.
  done.
Qed.

(** [Split] on a string without separator, and at the first separator. *)
Lemma Split_noSep s : noDash s = true → Split s "-" = [s].
Proof.
  induction s as [|x s IH]; simpl; [done|].
  intros H. apply andb_true_iff in H as [Hx Hs]. unfold notDash in Hx.
  destruct (Ascii.eqb x "-"); [done|]. by rewrite (IH Hs).
Qed.

Lemma Split_at_dash a b :
  noDash a = true → Split (a +:+ String "-" b) "-" = a :: Split b "-".
Proof.
  induction a as [|x a IH]; unfold_app; simpl.
  { done. }
  intros H. apply andb_true_iff in H as [Hx Ha]. unfold notDash in Hx.
  destruct (Ascii.eqb x "-"); [done|]. by rewrite (IH Ha).
Qed.

Lemma Split_two a b :
  noDash a = true → noDash b = true → Split (a +:+ String "-" b) "-" = [a; b].
Proof. intros Ha Hb. by rewrite Split_at_dash, Split_noSep. Qed.

(** The converse: two tokens come from exactly one separator. *)
Lemma Split_cons_nonempty s : Split s "-" ≠ [].
Proof.
  destruct s as [|x s]; simpl; [done|].
  destruct (Ascii.eqb x "-"); [done|]. by destruct (Split s "-").
Qed.

Lemma Split_one_inv s : ∀ b, Split s "-" = [b] → s = b ∧ noDash b = true.
Proof.
  induction s as [|y s IH]; intros b; simpl.
  - by intros [= <-].
  - destruct (Ascii.eqb_spec y "-") as [->|Hy].
    + intros [= _ E]. by apply Split_cons_nonempty in E.
    + destruct (Split s "-") as [|t [|??]] eqn:Es;
        [by apply Split_cons_nonempty in Es| |done].
      intros [= <-]. destruct (IH t eq_refl) as [-> Ht]. split; [done|].
      simpl. unfold notDash at 1. by destruct (Ascii.eqb_spec y "-").
Qed.

Lemma Split_two_inv s : ∀ a b,
  Split s "-" = [a; b] → s = a +:+ String "-" b ∧ noDash a = true ∧ noDash b = true.
Proof.
  induction s as [|x s IH]; intros a b; simpl; [done|].
  destruct (Ascii.eqb_spec x "-") as [->|Hx].
  - intros [= <- Hs]. apply Split_one_inv in Hs as [-> Hb]. done.
  - destruct (Split s "-") as [|t ts] eqn:Es; [done|].
    intros [= <- ->]. destruct (IH t b eq_refl) as (-> & Ht & Hb).
    split_and!; [done| |done]. simpl. unfold notDash at 1.
    by destruct (Ascii.eqb_spec x "-").
Qed.

(** Trimming: white space in front goes, a digit stops the cut. *)
Lemma trimFront_space fwd w s :
  allSpace w = true → trimFront fwd (w +:+ s) = trimFront fwd s.
Proof.
  induction w as [|x w IH]; [done|]. unfold_app. simpl. intros H.
  apply andb_true_iff in H as [Hx Hw]. by rewrite Hx, IH.
Qed.

Lemma trimFront_digit fwd c r :
  isDigit c = true → trimFront fwd (String c r) = String c r.
Proof.
  intros Hc. pose proof (isDigit_byte _ Hc) as Hb.
  cbn [trimFront]. rewrite (digit_not_space _ Hc).
  destruct r as [|c2 r2]; [done|].
  assert (space2 c c2 = false) as E1.
  { unfold space2. destruct (Z.eqb_spec (byteOf c) 194); [lia|done]. }
  assert (space2 c2 c = false) as E2.
  { unfold space2. destruct (Z.eqb_spec (byteOf c) 133); [lia|].
    destruct (Z.eqb_spec (byteOf c) 160); [lia|]. apply andb_false_r. }
  assert ((if fwd then space2 c c2 else space2 c2 c) = false) as -> by (by destruct fwd).
  destruct r2 as [|c3 r3]; [done|].
  assert (space3 c c2 c3 = false) as E3.
  { unfold space3.
    destruct (Z.eqb_spec (byteOf c) 225); [lia|].
    destruct (Z.eqb_spec (byteOf c) 226); [lia|].
    destruct (Z.eqb_spec (byteOf c) 227); [lia|]. done. }
  assert (space3 c3 c2 c = false) as E4.
  { unfold space3.
    destruct (Z.eqb_spec (byteOf c) 128); [lia|].
    destruct (Z.eqb_spec (byteOf c) 159); [lia|].
    destruct (Z.eqb_spec (byteOf c) 168); [lia|].
    destruct (Z.eqb_spec (byteOf c) 169); [lia|].
    destruct (Z.eqb_spec (byteOf c) 175); [lia|].
    destruct (Z.leb_spec 128 (byteOf c)); [lia|].
    rewrite !andb_false_r. done. }
  by destruct fwd; rewrite ?E3, ?E4.
Qed.

Lemma TrimSpace_padded w1 a w2 :
  allSpace w1 = true → isDIGITS a = true → allSpace w2 = true →
  TrimSpace (w1 +:+ a +:+ w2) = a.
Proof.
  intros H1 Ha H2. unfold isDIGITS in Ha. apply andb_true_iff in Ha as [Hne Hd].
  unfold TrimSpace. rewrite trimFront_space by done.
  destruct a as [|c r]; [done|]. simpl in Hd. apply andb_true_iff in Hd as [Hc Hr].
  rewrite app_cons, trimFront_digit by done. rewrite <- app_cons.
  rewrite rev_app_distr_string, trimFront_space by (by rewrite allChars_rev).
  assert (∃ d t, String.rev (String c r) = String d t ∧ isDigit d = true) as (d & t & E & Hd').
  { assert (allDigits (String.rev (String c r)) = true) as Hall.
    { rewrite allChars_rev. simpl. by rewrite Hc, Hr. }
    destruct (String.rev (String c r)) as [|d t] eqn:E.
    - apply (f_equal String.rev) in E. by rewrite rev_involutive_string in E.
    - simpl in Hall. apply andb_true_iff in Hall as [? _]. eauto. }
  rewrite E, trimFront_digit by done. rewrite <- E. apply rev_involutive_string.
Qed.

Lemma TrimSpace_digits a : isDIGITS a = true → TrimSpace a = a.
Proof.
  intros Ha. pose proof (TrimSpace_padded "" a "" eq_refl Ha eq_refl) as H.
  by rewrite app_nil, app_empty_r in H.
Qed.

(** ** The parser on a specifier of two tokens *)

Lemma specifier_prefix x : HasPrefix ("bytes=" +:+ x) "bytes=" = true.
Proof. by destruct x. Qed.

Lemma specifier_rest x : sliceFrom 6 ("bytes=" +:+ x) = x.
Proof. reflexivity. Qed.

Lemma prefix_sliceFrom p : ∀ s,
  String.prefix p s = true → s = p +:+ sliceFrom (String.length p) s.
Proof.
  induction p as [|a p IH]; intros s; [by destruct s|].
  destruct s as [|b s]; simpl; [done|].
  destruct (Ascii.ascii_dec a b) as [<-|]; [|done].
  intros H. rewrite app_cons. f_equal. by apply IH.
Qed.

Lemma prefix_inv s : HasPrefix s "bytes=" = true → s = "bytes=" +:+ sliceFrom 6 s.
Proof. apply (prefix_sliceFrom "bytes="). Qed.

(** Whatever the input, both results are 64-bit values. *)
Lemma offsetAndLen_range s cs o l err :
  offsetAndLenFromRange s cs = (o, l, err) →
  (- 2 ^ 63 <= o < 2 ^ 63) ∧ (- 2 ^ 63 <= l < 2 ^ 63).
Proof.
  unfold offsetAndLenFromRange.
  repeat match goal with
  | |- context [if ?b then _ else _] => destruct b
  | |- context [match ?x with _ => _ end] => destruct x
  end;
  intros [= <- <- <-]; split; try apply int64_range; lia.
Qed.

Lemma offsetAndLen_tokens s t0 t1 cs :
  HasPrefix s "bytes=" = true → Split (sliceFrom 6 s) "-" = [t0; t1] →
  offsetAndLenFromRange s cs =
    if String.eqb t0 "" then
      match ParseUint (TrimSpace t1) with
      | Failed _ => (-1, -1, Some errInvalidRangeStr)
      | Ok length => (int64 (cs - int64 length), int64 length, None)
      end
    else if String.eqb t1 "" then
      match ParseUint (TrimSpace t0) with
      | Failed e => (-1, -1, Some (errNum e))
      | Ok offset => (int64 offset, int64 (int64 cs - int64 offset), None)
      end
    else
      match ParseUint (TrimSpace t0) with
      | Failed e => (-1, -1, Some (errNum e))
      | Ok start =>
          match ParseUint (TrimSpace t1) with
          | Failed e => (-1, -1, Some (errNum e))
          | Ok end_ => (int64 start, int64 (int64 (uint64 (end_ - start)) + 1), None)
          end
      end.
Proof.
  intros Hp Hs. unfold offsetAndLenFromRange. rewrite Hp, Hs.
  destruct s; [done|]. done.
Qed.

Lemma Split_specifier t0 t1 :
  noDash t0 = true → noDash t1 = true →
  Split (sliceFrom 6 (specifier t0 t1)) "-" = [t0; t1].
Proof.
  intros H0 H1. unfold specifier. rewrite specifier_rest. by apply Split_two.
Qed.

(** ** The store *)

Lemma Len_le_length c : Len c <= Z.of_nat (length (contents c)).
Proof. apply int64_nonneg_le. lia. Qed.

Lemma Len_range c : - 2 ^ 63 <= Len c < 2 ^ 63.
Proof. apply int64_range. Qed.

Lemma int64_Len c : int64 (Len c) = Len c.
Proof. apply int64_idem. Qed.

Lemma ReadRange_outOfRange c start end_ :
  outOfRange c start end_ = true →
  ReadRange c start end_ = Returned ([], Some errInvalidRange).
Proof. unfold outOfRange, ReadRange. by intros ->. Qed.

Lemma ReadRange_inRange c start end_ :
  outOfRange c start end_ = false →
  ReadRange c start end_ =
    Returned (take (Z.to_nat (end_ - start)) (drop (Z.to_nat start) (contents c)), None)
  ∧ Z.of_nat (length (take (Z.to_nat (end_ - start)) (drop (Z.to_nat start) (contents c))))
    = end_ - start.
Proof.
  unfold outOfRange, ReadRange. intros H. rewrite H.
  apply orb_false_iff in H as [H Hs]. apply orb_false_iff in H as [He Hl].
  pose proof (Len_le_length c).
  unfold sliceBytes.
  destruct (Z.leb_spec 0 start); [|lia].
  destruct (Z.leb_spec start end_); [|lia].
  destruct (Z.leb_spec end_ (Z.of_nat (length (contents c)))); [|lia].
  split; [done|]. rewrite length_take, length_drop. lia.
Qed.

(** ** The responder and the dispatcher as one function of the request *)

Lemma connWriter_fresh tls : wroteHeader (connWriter tls) = false ∧ written (connWriter tls) = [].
Proof. by destruct tls. Qed.

Lemma AddHeader_fresh k v w :
  wroteHeader w = false ∧ written w = [] →
  wroteHeader (AddHeader k v w) = false ∧ written (AddHeader k v w) = [].
Proof. done. Qed.

Lemma finish_WriteHeader code w :
  wroteHeader w = false ∧ written w = [] →
  finish (WriteHeader code w) = mkResponse code (handlerHeader w) [].
Proof. intros [Hw Hb]. unfold finish, WriteHeader. rewrite Hw. simpl. by rewrite Hb. Qed.

Lemma finish_Write code b w :
  wroteHeader w = false ∧ written w = [] →
  finish (Write b (WriteHeader code w)).1.1 = mkResponse code (handlerHeader w) b.
Proof. intros [Hw Hb]. unfold finish, Write, WriteHeader. rewrite Hw. simpl. by rewrite Hb. Qed.

(** In range, the window is exactly [length] bytes long: the sum
    [offset + length] did not wrap. *)
Lemma inRange_exact c s o l :
  offsetAndLenFromRange s (Len c) = (o, l, None) →
  outOfRange c o (int64 (o + l)) = false →
  int64 (o + l) = o + l ∧ 0 <= o ∧ 0 <= l ∧ o + l <= Len c.
Proof.
  intros Hp Hr. apply offsetAndLen_range in Hp as [Ho Hl].
  unfold outOfRange in Hr.
  apply orb_false_iff in Hr as [Hr Hs]. apply orb_false_iff in Hr as [He HL].
  pose proof (Len_range c). destruct (int64_congr (o + l)) as [k Hk].
  assert (k = 0) by lia. lia.
Qed.

Lemma writeContentRange_response w c s vbs :
  wroteHeader w = false ∧ written w = [] →
  ∃ w', writeContentRange w c s vbs = Returned w'
        ∧ finish w' = rangeResponse (handlerHeader w) c s.
Proof.
  intros Hw. unfold writeContentRange, rangeResponse.
  replace (int64 (Len c)) with (Len c) by (symmetry; apply int64_idem).
  destruct (offsetAndLenFromRange s (Len c)) as [[o l] [e|]] eqn:Hp.
  { eexists. split; [done|]. by apply finish_WriteHeader. }
  destruct (outOfRange c o (int64 (o + l))) eqn:Hr.
  { rewrite (ReadRange_outOfRange _ _ _ Hr). simpl.
    eexists. split; [done|]. by apply finish_WriteHeader. }
  destruct (ReadRange_inRange _ _ _ Hr) as [-> Hlen].
  destruct (inRange_exact _ _ _ _ Hp Hr) as (Hsum & Ho & Hl & Hle).
  simpl. rewrite Hlen, Hsum.
  replace (o + l - o) with l by lia.
  rewrite (int64_small l) by (pose proof (Len_range c); lia).
  rewrite Z.eqb_refl. simpl.
  eexists. split; [done|].
  unfold partialContent. rewrite Hsum. replace (o + l - o) with l by lia.
  destruct Hw as [Hw Hb]. unfold finish, WriteHeader, AddHeader. simpl.
  rewrite Hw. simpl. by rewrite Hb.
Qed.

Lemma serveContents_dispatch w req c vbs :
  String.eqb (Method req) MethodGet = true →
  serveContents w req c vbs =
    let w := AddHeader "Accept-Ranges" "bytes" w in
    if String.eqb (selectSpecifier req) "" then
      let w := AddHeader "Content-Length" (FormatInt (Len c)) w in
      let w := WriteHeader StatusOK w in
      Returned (Write (ReadAll c) w).1.1
    else writeContentRange w c (selectSpecifier req) vbs.
Proof.
  intros Hm. unfold serveContents, selectSpecifier. rewrite Hm. simpl negb. cbv iota.
  change (CanonicalMIMEHeaderKey "range") with (CanonicalMIMEHeaderKey "Range").
  replace (Header_Get (ReqHeader req) "range") with (Header_Get (ReqHeader req) "Range")
    by done.
  replace (Header_Get (ReqHeader req) "x-dolt-range")
    with (Header_Get (ReqHeader req) "X-Dolt-Range") by done.
  cbv zeta. simpl firstNonEmpty.
  destruct (String.eqb (Header_Get (ReqHeader req) "Range") "") eqn:E1.
  2:{ rewrite E1. done. }
  rewrite E1. simpl negb. cbv iota.
  destruct (String.eqb (Header_Get (ReqHeader req) "X-Dolt-Range") "") eqn:E2.
  2:{ rewrite E2. done. }
  rewrite E2. simpl negb. cbv iota.
  destruct (String.eqb (Values_Get (URLQuery req) "Range") "") eqn:E3.
  2:{ rewrite E3. done. }
  destruct (String.eqb (Values_Get (URLQuery req) "range") "") eqn:E4.
  2:{ rewrite ?E4. simpl negb. cbv iota. rewrite ?E4. done. }
  simpl negb. cbv iota. unfold ReadAll, Len.
  simpl. by rewrite Z.eqb_refl.
Qed.

Lemma handle_response tls c vbs req :
  handle (connWriter tls) c vbs req
  = Returned (expectedResponse (handlerHeader (connWriter tls)) c req).
Proof.
  unfold handle, expectedResponse.
  pose proof (connWriter_fresh tls) as Hw.
  destruct (String.eqb (Method req) MethodGet) eqn:Hm; simpl negb; cbv iota.
  - rewrite serveContents_dispatch by done. cbv zeta.
    destruct (String.eqb (selectSpecifier req) "") eqn:Hs.
    + simpl. f_equal. unfold fullContent.
      apply (finish_Write StatusOK (ReadAll c) (AddHeader _ _ (AddHeader _ _ _))).
      by destruct tls.
    + destruct (writeContentRange_response (AddHeader "Accept-Ranges" "bytes" (connWriter tls))
                  c (selectSpecifier req) vbs) as (w' & -> & Hf); [by destruct tls|].
      simpl. by rewrite Hf.
  - unfold serveContents. rewrite Hm. simpl. f_equal.
    by apply (finish_Write StatusBadRequest).
Qed.

(** ** The store's bounds check *)

(** C6: [ReadRange(start, end)] fails with the out-of-range error exactly
    when [end < start], [end > Len()] or [start < 0]; in every other case
    it succeeds with the bytes of the store from index [start] up to, but
    not including, [end], which are [end - start] bytes. *)
Theorem C6_ReadRange_bounds (c : inMemContents) (start end_ : Z) :
  ((∃ b, ReadRange c start end_ = Returned (b, Some errInvalidRange))
     ↔ (end_ < start ∨ end_ > Len c ∨ start < 0))
  ∧ (¬ (end_ < start ∨ end_ > Len c ∨ start < 0) →
     ∃ b, ReadRange c start end_ = Returned (b, None)
          ∧ Z.of_nat (length b) = end_ - start
          ∧ ∀ i : nat, Z.of_nat i < end_ - start →
              b !! i = contents c !! (Z.to_nat start + i)%nat).
Proof.
  assert (outOfRange c start end_ = true ↔ (end_ < start ∨ end_ > Len c ∨ start < 0)) as Hiff.
  { unfold outOfRange. rewrite !orb_true_iff, Z.ltb_lt, Z.gtb_gt, Z.ltb_lt. tauto. }
  split.
  - rewrite <- Hiff. split.
    + intros [b Hb]. destruct (outOfRange c start end_) eqn:Hr; [done|].
      destruct (ReadRange_inRange _ _ _ Hr) as [E _]. congruence.
    + intros Hr. eexists. by apply ReadRange_outOfRange.
  - intros Hn. rewrite <- Hiff in Hn. apply not_true_is_false in Hn.
    destruct (ReadRange_inRange _ _ _ Hn) as [E Hlen].
    eexists. split_and!; [done|done|].
    intros i Hi. rewrite lookup_take_lt by lia. apply lookup_drop.
Qed.

Lemma C6_ReadRange_bounds_witness :
  ∃ b, ReadRange newContents 3990 4000 = Returned (b, None)
       ∧ Z.of_nat (length b) = 4000 - 3990
       ∧ ∀ i : nat, Z.of_nat i < 4000 - 3990 →
           b !! i = contents newContents !! (Z.to_nat 3990 + i)%nat.
Proof.
  apply (C6_ReadRange_bounds newContents 3990 4000).
  change (Len newContents) with 4000. lia.
Defined.

(** ** Response headers *)

Lemma connWriter_header tls :
  handlerHeader (connWriter tls) !! "Accept-Ranges" = None
  ∧ handlerHeader (connWriter tls) !! "Content-Range" = None
  ∧ handlerHeader (connWriter tls) !! "Content-Length" = None.
Proof. by destruct tls. Qed.

Lemma acceptRanges_lookup tls :
  acceptRanges tls !! "Accept-Ranges" = Some ["bytes"]
  ∧ acceptRanges tls !! "Content-Range" = None
  ∧ acceptRanges tls !! "Content-Length" = None.
Proof. by destruct tls. Qed.

Lemma Header_Add_fresh (h : gmap string (list string)) k v :
  CanonicalMIMEHeaderKey k = k → h !! k = None → Header_Add h k v !! k = Some [v].
Proof. intros Hk Hn. unfold Header_Add. rewrite Hk, Hn. apply lookup_insert_eq. Qed.

Lemma Header_Add_other (h : gmap string (list string)) k v k' :
  CanonicalMIMEHeaderKey k ≠ k' → Header_Add h k v !! k' = h !! k'.
Proof. intros Hk. unfold Header_Add. by apply lookup_insert_ne. Qed.

Lemma partialContent_header tls c o l :
  let resp := partialContent (acceptRanges tls) c o l in
  RespHeader resp !! "Accept-Ranges" = Some ["bytes"]
  ∧ RespHeader resp !! "Content-Length" = Some [FormatInt l]
  ∧ RespHeader resp !! "Content-Range" =
      Some ["bytes " +:+ FormatInt o +:+ "-" +:+ FormatInt (int64 (int64 (o + l) - 1))
              +:+ "/" +:+ FormatInt (Len c)].
Proof.
  destruct (acceptRanges_lookup tls) as (Ha & Hr & Hl). simpl. split_and!.
  - by rewrite !Header_Add_other.
  - apply Header_Add_fresh; [done|]. by rewrite Header_Add_other.
  - rewrite Header_Add_other by done. by apply Header_Add_fresh.
Qed.

Lemma fullContent_header tls c :
  let resp := fullContent (acceptRanges tls) c in
  RespHeader resp !! "Accept-Ranges" = Some ["bytes"]
  ∧ RespHeader resp !! "Content-Length" = Some [FormatInt (Len c)]
  ∧ RespHeader resp !! "Content-Range" = None.
Proof.
  destruct (acceptRanges_lookup tls) as (Ha & Hr & Hl). simpl. split_and!.
  - by rewrite Header_Add_other.
  - by apply Header_Add_fresh.
  - by rewrite Header_Add_other.
Qed.

(** The three shapes of a response to a GET request. *)
Lemma rangeResponse_cases h c s :
  rangeResponse h c s = badRequest h
  ∨ ∃ o l, offsetAndLenFromRange s (Len c) = (o, l, None)
           ∧ outOfRange c o (int64 (o + l)) = false
           ∧ rangeResponse h c s = partialContent h c o l.
Proof.
  unfold rangeResponse.
  destruct (offsetAndLenFromRange s (Len c)) as [[o l] [e|]] eqn:Hp; [by left|].
  destruct (outOfRange c o (int64 (o + l))) eqn:Hr; [by left|].
  right. by exists o, l.
Qed.

Lemma handle_get tls c vbs req :
  String.eqb (Method req) MethodGet = true →
  handle (connWriter tls) c vbs req =
    Returned (if String.eqb (selectSpecifier req) "" then fullContent (acceptRanges tls) c
              else rangeResponse (acceptRanges tls) c (selectSpecifier req)).
Proof. intros Hm. rewrite handle_response. unfold expectedResponse. by rewrite Hm. Qed.

(** ** Claims on the headers of a response *)

(** C3, as the code has it: the header [Accept-Ranges: bytes] is set after
    the test of the method and before the range is looked at, so every
    response to a GET request carries it and no response to another method
    does. *)
Theorem C3_accept_ranges_on_get (tls : bool) (c : inMemContents) (vbs : bool)
    (req : Request) :
  ∃ resp, handle (connWriter tls) c vbs req = Returned resp
          ∧ RespHeader resp !! "Accept-Ranges" =
              if String.eqb (Method req) MethodGet then Some ["bytes"] else None.
Proof.
  rewrite handle_response. eexists. split; [done|].
  unfold expectedResponse.
  destruct (String.eqb (Method req) MethodGet); simpl negb; cbv iota.
  - cbv zeta. fold (acceptRanges tls).
    destruct (String.eqb (selectSpecifier req) "").
    + apply fullContent_header.
    + destruct (rangeResponse_cases (acceptRanges tls) c (selectSpecifier req))
        as [-> | (o & l & _ & _ & ->)].
      * apply acceptRanges_lookup.
      * apply partialContent_header.
  - apply connWriter_header.
Qed.

(** C3 as stated fails: the response to a POST request has no
    [Accept-Ranges] header. *)
Lemma C3_counterexample :
  ∃ resp, httpHandler false (mkRequest "POST" ∅ ∅) = Returned resp
          ∧ StatusCode resp = 400
          ∧ RespHeader resp !! "Accept-Ranges" = None
          ∧ Header_Get (RespHeader resp) "Accept-Ranges" = "".
Proof. eexists. split; [reflexivity|]. by vm_compute. Qed.

(** C4: a 206 response declares as [Content-Length] the exact length of
    the slice [ReadRange] returned and as [Content-Range] the text
    [bytes {offset}-{offset+length-1}/{Len}], whose end minus start plus one
    is that length; a response with another status (200 or 400) has no
    [Content-Range] header. *)
Theorem C4_partial_response_consistent (tls : bool) (c : inMemContents)
    (vbs : bool) (req : Request) :
  ∃ resp, handle (connWriter tls) c vbs req = Returned resp
    ∧ (StatusCode resp = StatusPartialContent →
       ∃ offset length b,
         ReadRange c offset (offset + length) = Returned (b, None)
         ∧ Body resp = b
         ∧ RespHeader resp !! "Content-Length" = Some [FormatInt (Z.of_nat (List.length b))]
         ∧ RespHeader resp !! "Content-Range" =
             Some ["bytes " +:+ FormatInt offset +:+ "-"
                     +:+ FormatInt (offset + length - 1) +:+ "/" +:+ FormatInt (Len c)]
         ∧ (offset + length - 1) - offset + 1 = Z.of_nat (List.length b))
    ∧ (StatusCode resp ≠ StatusPartialContent →
       (StatusCode resp = StatusOK ∨ StatusCode resp = StatusBadRequest)
       ∧ RespHeader resp !! "Content-Range" = None).
Proof.
  rewrite handle_response. eexists. split; [done|].
  unfold expectedResponse.
  destruct (String.eqb (Method req) MethodGet); simpl negb; cbv iota.
  2:{ split; [done|]. intros _. split; [by right|]. apply connWriter_header. }
  cbv zeta. fold (acceptRanges tls).
  destruct (String.eqb (selectSpecifier req) "").
  { split; [done|]. intros _. split; [by left|]. apply fullContent_header. }
  destruct (rangeResponse_cases (acceptRanges tls) c (selectSpecifier req))
    as [-> | (o & l & Hp & Hr & ->)].
  { split; [done|]. intros _. split; [by right|]. apply acceptRanges_lookup. }
  split; [|done]. intros _.
  destruct (inRange_exact _ _ _ _ Hp Hr) as (Hsum & Ho & Hl & Hle).
  destruct (ReadRange_inRange _ _ _ Hr) as [E Hlen].
  destruct (partialContent_header tls c o l) as (_ & HL & HR).
  rewrite Hsum in *. rewrite (int64_small (o + l - 1)) in HR
    by (pose proof (Len_range c); lia).
  exists o, l. eexists. split; [exact E|].
  split_and!.
  - unfold partialContent. simpl. by rewrite Hsum.
  - rewrite Hlen. by replace (o + l - o) with l by lia.
  - done.
  - rewrite Hlen. lia.
Qed.

(** ** The dispatcher *)

Lemma get_method req : Method req = MethodGet → String.eqb (Method req) MethodGet = true.
Proof. intros ->. done. Qed.

Lemma eqb_nonempty s : s ≠ "" → String.eqb s "" = false.
Proof. intros H. by apply String.eqb_neq. Qed.

(** C7: for a GET request the dispatcher takes the first non-empty of the
    header [Range], the header [X-Dolt-Range], the query parameter [Range]
    and the query parameter [range], and answers with what the responder
    makes of that specifier alone; with none of them it serves the whole
    content with status 200. *)
Theorem C7_priority_dispatch (tls : bool) (c : inMemContents) (vbs : bool)
    (req : Request) :
  Method req = MethodGet →
  ∃ resp, handle (connWriter tls) c vbs req = Returned resp
    ∧ (∀ s, s ≠ "" →
         (Header_Get (ReqHeader req) "Range" = s
          ∨ (Header_Get (ReqHeader req) "Range" = ""
             ∧ Header_Get (ReqHeader req) "X-Dolt-Range" = s)
          ∨ (Header_Get (ReqHeader req) "Range" = ""
             ∧ Header_Get (ReqHeader req) "X-Dolt-Range" = ""
             ∧ Values_Get (URLQuery req) "Range" = s)
          ∨ (Header_Get (ReqHeader req) "Range" = ""
             ∧ Header_Get (ReqHeader req) "X-Dolt-Range" = ""
             ∧ Values_Get (URLQuery req) "Range" = ""
             ∧ Values_Get (URLQuery req) "range" = s)) →
         ∃ w', writeContentRange (AddHeader "Accept-Ranges" "bytes" (connWriter tls))
                 c s vbs = Returned w'
               ∧ resp = finish w')
    ∧ (Header_Get (ReqHeader req) "Range" = "" →
       Header_Get (ReqHeader req) "X-Dolt-Range" = "" →
       Values_Get (URLQuery req) "Range" = "" →
       Values_Get (URLQuery req) "range" = "" →
       StatusCode resp = StatusOK ∧ Body resp = ReadAll c
       ∧ RespHeader resp !! "Content-Length" = Some [FormatInt (Len c)]).
Proof.
  intros Hm. apply get_method in Hm. rewrite (handle_get _ _ _ _ Hm).
  eexists. split; [done|]. split.
  - intros s Hs Hsel.
    assert (selectSpecifier req = s) as ->.
    { unfold selectSpecifier. simpl.
      destruct Hsel as [H1|[(H1 & H2)|[(H1 & H2 & H3)|(H1 & H2 & H3 & H4)]]];
        rewrite ?H1, ?H2, ?H3, ?H4; simpl; by rewrite ?(eqb_nonempty s Hs). }
    rewrite (eqb_nonempty s Hs).
    destruct (writeContentRange_response (AddHeader "Accept-Ranges" "bytes" (connWriter tls))
                c s vbs) as (w' & E & Hf); [by destruct tls|].
    exists w'. split; [done|]. rewrite Hf. done.
  - intros H1 H2 H3 H4.
    assert (selectSpecifier req = "") as ->.
    { unfold selectSpecifier. simpl. by rewrite H1, H2, H3, H4. }
    simpl. split_and!; [done|done|]. apply (fullContent_header tls c).
Qed.

Lemma C7_priority_dispatch_witness :
  ∃ resp,
    handle (connWriter false) newContents false
      (mkRequest "GET" {[ "Range" := ["bytes=0-1000"]; "X-Dolt-Range" := ["bytes=-80"] ]}
                 {[ "range" := ["bytes=2500-2599"] ]}) = Returned resp
    ∧ StatusCode resp = 206
    ∧ RespHeader resp !! "Content-Range" = Some ["bytes 0-1000/4000"].
Proof.
  destruct (C7_priority_dispatch false newContents false
              (mkRequest "GET" {[ "Range" := ["bytes=0-1000"]; "X-Dolt-Range" := ["bytes=-80"] ]}
                         {[ "range" := ["bytes=2500-2599"] ]}) eq_refl)
    as (resp & E & Hsel & _).
  exists resp. split; [exact E|].
  destruct (Hsel "bytes=0-1000" ltac:(done) ltac:(by left)) as (w' & Hw & ->).
  vm_compute in Hw. injection Hw as <-. by vm_compute.
Defined.

(** C8: the same specifier sent through the header [Range], through the
    header [X-Dolt-Range] or through the query parameter [range], and
    through nothing else, gets one and the same response: status, headers
    and body. *)
Theorem C8_channels_agree (tls : bool) (c : inMemContents) (vbs : bool) (s : string)
    (hs qs : gmap string (list string)) :
  Header_Get hs "Range" = "" → Header_Get hs "X-Dolt-Range" = "" →
  Values_Get qs "Range" = "" → Values_Get qs "range" = "" →
  ∃ resp,
    handle (connWriter tls) c vbs (mkRequest MethodGet (<["Range" := [s]]> hs) qs)
      = Returned resp
    ∧ handle (connWriter tls) c vbs (mkRequest MethodGet (<["X-Dolt-Range" := [s]]> hs) qs)
      = Returned resp
    ∧ handle (connWriter tls) c vbs (mkRequest MethodGet hs (<["range" := [s]]> qs))
      = Returned resp.
Proof.
  intros H1 H2 H3 H4.
  assert (∀ x, firstNonEmpty [x; ""; ""; ""] = x ∧ firstNonEmpty [""; x; ""; ""] = x
               ∧ firstNonEmpty [""; ""; ""; x] = x) as Hf.
  { intros x. simpl. by destruct x. }
  assert (selectSpecifier (mkRequest MethodGet (<["Range" := [s]]> hs) qs) = s) as E1.
  { unfold selectSpecifier, Header_Get in *. simpl in *.
    rewrite lookup_insert_eq, lookup_insert_ne by done.
    rewrite H2, H3, H4. apply Hf. }
  assert (selectSpecifier (mkRequest MethodGet (<["X-Dolt-Range" := [s]]> hs) qs) = s) as E2.
  { unfold selectSpecifier, Header_Get in *. simpl in *.
    rewrite lookup_insert_eq, lookup_insert_ne by done.
    rewrite H1, H3, H4. apply Hf. }
  assert (selectSpecifier (mkRequest MethodGet hs (<["range" := [s]]> qs)) = s) as E3.
  { unfold selectSpecifier, Values_Get in *. simpl in *.
    rewrite lookup_insert_eq, lookup_insert_ne by done.
    rewrite H1, H2, H3. apply Hf. }
  rewrite !handle_get by done. simpl. rewrite E1, E2, E3. eauto.
Qed.

Lemma C8_channels_agree_witness :
  ∃ resp,
    httpHandler false (mkRequest "GET" {[ "Range" := ["bytes=-80"] ]} ∅) = Returned resp
    ∧ httpHandler false (mkRequest "GET" {[ "X-Dolt-Range" := ["bytes=-80"] ]} ∅) = Returned resp
    ∧ httpHandler false (mkRequest "GET" ∅ {[ "range" := ["bytes=-80"] ]}) = Returned resp.
Proof.
  exact (C8_channels_agree false newContents false "bytes=-80" ∅ ∅
           eq_refl eq_refl eq_refl eq_refl).
Defined.

(** ** The parser on decimal digits *)

Lemma int64_of_congr a z k : - 2 ^ 63 <= a < 2 ^ 63 → a = z + k * 2 ^ 64 → int64 z = a.
Proof.
  intros Ha E. destruct (int64_congr z) as [k' Hk']. pose proof (int64_range z).
  apply (int64_unique _ _ (k' - k)); [done|done|lia].
Qed.

Lemma DIGITS_nonempty a : isDIGITS a = true → String.eqb a "" = false.
Proof. unfold isDIGITS. intros H. apply andb_true_iff in H as [H _]. by destruct (String.eqb a ""). Qed.

Lemma DIGITS_noDash a : isDIGITS a = true → noDash a = true.
Proof.
  unfold isDIGITS. intros H. apply andb_true_iff in H as [_ H].
  revert H. apply allChars_impl, digit_notDash.
Qed.

Lemma DIGITS_value a : isDIGITS a = true → 0 <= decimalValue a.
Proof.
  unfold isDIGITS. intros H. apply andb_true_iff in H as [_ H].
  by apply decimalValue_nonneg.
Qed.

Lemma ParseUint_token a :
  isDIGITS a = true →
  ParseUint (TrimSpace a) =
    if decimalValue a <=? maxUint64 then Ok (decimalValue a)
    else Failed (rangeError fnParseUint a).
Proof. intros Ha. rewrite TrimSpace_digits by done. by apply ParseUint_digits. Qed.

Lemma parse_suffix n cs :
  isDIGITS n = true →
  offsetAndLenFromRange (specifier "" n) cs =
    if decimalValue n <=? maxUint64
    then (int64 (cs - int64 (decimalValue n)), int64 (decimalValue n), None)
    else (-1, -1, Some errInvalidRangeStr).
Proof.
  intros Hn.
  rewrite (offsetAndLen_tokens _ "" n); [|apply specifier_prefix|].
  2:{ apply Split_specifier; [done|by apply DIGITS_noDash]. }
  simpl String.eqb. cbv iota. rewrite ParseUint_token by done.
  by destruct (decimalValue n <=? maxUint64).
Qed.

Lemma parse_prefix n cs :
  isDIGITS n = true →
  offsetAndLenFromRange (specifier n "") cs =
    if decimalValue n <=? maxUint64
    then (int64 (decimalValue n), int64 (int64 cs - int64 (decimalValue n)), None)
    else (-1, -1, Some (errNum (rangeError fnParseUint n))).
Proof.
  intros Hn.
  rewrite (offsetAndLen_tokens _ n ""); [|apply specifier_prefix|].
  2:{ apply Split_specifier; [by apply DIGITS_noDash|done]. }
  rewrite (DIGITS_nonempty n Hn). simpl String.eqb. cbv iota.
  rewrite ParseUint_token by done.
  by destruct (decimalValue n <=? maxUint64).
Qed.

Lemma parse_full a b cs :
  isDIGITS a = true → isDIGITS b = true →
  offsetAndLenFromRange (specifier a b) cs =
    if decimalValue a <=? maxUint64 then
      if decimalValue b <=? maxUint64 then
        (int64 (decimalValue a),
         int64 (int64 (uint64 (decimalValue b - decimalValue a)) + 1), None)
      else (-1, -1, Some (errNum (rangeError fnParseUint b)))
    else (-1, -1, Some (errNum (rangeError fnParseUint a))).
Proof.
  intros Ha Hb.
  rewrite (offsetAndLen_tokens _ a b); [|apply specifier_prefix|].
  2:{ apply Split_specifier; by apply DIGITS_noDash. }
  rewrite (DIGITS_nonempty a Ha), (DIGITS_nonempty b Hb).
  rewrite !ParseUint_token by done.
  destruct (decimalValue a <=? maxUint64); [|done].
  by destruct (decimalValue b <=? maxUint64).
Qed.

(** The window of a full form whose end lies before its start, within
    the store. *)
Lemma parse_full_reversed a b cs :
  isDIGITS a = true → isDIGITS b = true →
  decimalValue b < decimalValue a < 2 ^ 63 →
  offsetAndLenFromRange (specifier a b) cs
  = (decimalValue a, decimalValue b - decimalValue a + 1, None).
Proof.
  intros Ha Hb Hlt. rewrite parse_full by done.
  pose proof (DIGITS_value a Ha). pose proof (DIGITS_value b Hb).
  unfold maxUint64.
  destruct (Z.leb_spec (decimalValue a) (2 ^ 64 - 1)); [|lia].
  destruct (Z.leb_spec (decimalValue b) (2 ^ 64 - 1)); [|lia].
  rewrite (int64_small (decimalValue a)) by lia.
  destruct (uint64_congr (decimalValue b - decimalValue a)) as [k Hk].
  rewrite (int64_of_congr (decimalValue b - decimalValue a)
             (uint64 (decimalValue b - decimalValue a)) (- k)) by lia.
  rewrite int64_small by lia. done.
Qed.

(** ** Claims on windows at the edge of the store *)

Lemma carries_response tls c vbs req s :
  carries req s → s ≠ "" →
  handle (connWriter tls) c vbs req = Returned (rangeResponse (acceptRanges tls) c s).
Proof.
  intros [Hm <-] Hs. rewrite handle_get by by apply get_method.
  by rewrite (eqb_nonempty _ Hs).
Qed.

Lemma specifier_nonempty t0 t1 : specifier t0 t1 ≠ "".
Proof. done. Qed.

(** C1, as the code has it: for a GET request with the full form
    ["bytes=A-B"], [B < A] and [A] within the store, the parser does not
    reject the specifier but yields the length [B - A + 1], which is not
    positive, and the server does not panic.  When [B + 1 < A] that length
    is negative, the bounds check of the store refuses the window and the
    response is 400.  When [B = A - 1] the length is zero, the bounds check
    accepts the empty window and the response is 206 with an empty body. *)
Theorem C1_reversed_range (tls : bool) (c : inMemContents) (vbs : bool)
    (req : Request) (a b : string) :
  isDIGITS a = true → isDIGITS b = true →
  carries req (specifier a b) →
  decimalValue b < decimalValue a → decimalValue a <= Len c →
  offsetAndLenFromRange (specifier a b) (Len c)
    = (decimalValue a, decimalValue b - decimalValue a + 1, None)
  ∧ decimalValue b - decimalValue a + 1 <= 0
  ∧ ∃ resp, handle (connWriter tls) c vbs req = Returned resp
      ∧ if decimalValue b + 1 <? decimalValue a
        then ReadRange c (decimalValue a)
               (decimalValue a + (decimalValue b - decimalValue a + 1))
             = Returned ([], Some errInvalidRange)
             ∧ StatusCode resp = StatusBadRequest
        else ReadRange c (decimalValue a)
               (decimalValue a + (decimalValue b - decimalValue a + 1))
             = Returned ([], None)
             ∧ StatusCode resp = StatusPartialContent
             ∧ Body resp = [].
Proof.
  intros Ha Hb Hc Hlt Hle. pose proof (Len_range c).
  pose proof (DIGITS_value b Hb).
  pose proof (parse_full_reversed a b (Len c) Ha Hb ltac:(lia)) as Hp.
  split_and!; [done|lia|].
  rewrite (carries_response _ _ _ _ _ Hc) by done.
  eexists. split; [done|]. unfold rangeResponse. rewrite Hp.
  rewrite int64_small by lia.
  destruct (Z.ltb_spec (decimalValue b + 1) (decimalValue a)) as [Hneg|Hzero].
  - assert (outOfRange c (decimalValue a)
              (decimalValue a + (decimalValue b - decimalValue a + 1)) = true) as Hr.
    { unfold outOfRange.
      destruct (Z.ltb_spec (decimalValue a + (decimalValue b - decimalValue a + 1))
                  (decimalValue a)); [done|lia]. }
    rewrite Hr. split; [by apply ReadRange_outOfRange|done].
  - assert (decimalValue b - decimalValue a + 1 = 0) as -> by lia.
    rewrite Z.add_0_r.
    assert (outOfRange c (decimalValue a) (decimalValue a) = false) as Hr.
    { unfold outOfRange.
      destruct (Z.ltb_spec (decimalValue a) (decimalValue a)); [lia|].
      destruct (Z.gtb_spec (decimalValue a) (Len c)); [lia|].
      destruct (Z.ltb_spec (decimalValue a) 0); [lia|done]. }
    rewrite Hr. destruct (ReadRange_inRange _ _ _ Hr) as [E _].
    rewrite Z.sub_diag in E. simpl in E.
    split_and!; [done|done|].
    simpl. rewrite Z.add_0_r, int64_small, Z.sub_diag by lia. done.
Qed.

Lemma C1_reversed_range_witness :
  ∃ resp, httpHandler false (mkRequest "GET" {[ "Range" := ["bytes=100-50"] ]} ∅)
          = Returned resp
          ∧ ReadRange newContents 100 (100 + (50 - 100 + 1))
            = Returned ([], Some errInvalidRange)
          ∧ StatusCode resp = 400.
Proof.
  destruct (C1_reversed_range false newContents false
              (mkRequest "GET" {[ "Range" := ["bytes=100-50"] ]} ∅) "100" "50")
    as (_ & _ & resp & E & Hr).
  - reflexivity.
  - reflexivity.
  - split; reflexivity.
  - vm_compute. reflexivity.
  - vm_compute. discriminate.
  - exists resp. split; [exact E|]. exact Hr.
Defined.

(** C1 as stated fails when [B = A - 1]: the length is zero, not
    negative, the bounds check accepts the empty window and the response
    is 206 with an empty body. *)
Lemma C1_counterexample :
  offsetAndLenFromRange "bytes=5-4" 4000 = (5, 0, None)
  ∧ ReadRange newContents 5 (5 + 0) = Returned ([], None)
  ∧ ∃ resp, httpHandler false (mkRequest "GET" {[ "Range" := ["bytes=5-4"] ]} ∅)
            = Returned resp
            ∧ StatusCode resp = 206
            ∧ StatusCode resp ≠ 400
            ∧ Body resp = []
            ∧ RespHeader resp !! "Content-Range" = Some ["bytes 5-4/4000"].
Proof.
  split_and!; [by vm_compute|by vm_compute|].
  eexists. split; [by vm_compute|]. by vm_compute.
Qed.

(** C9: the open-prefix form ["bytes=N-"] with [N] the length of the
    store gets a 206 response with an empty body and [Content-Length: 0],
    since [ReadRange(k, k)] succeeds for every [0 <= k <= Len]; with [N]
    larger than the length of the store the response is 400. *)
Theorem C9_open_prefix_at_end (tls : bool) (c : inMemContents) (vbs : bool)
    (req : Request) (n : string) :
  isDIGITS n = true → carries req (specifier n "") →
  (∀ k, 0 <= k <= Len c → ReadRange c k k = Returned ([], None))
  ∧ (decimalValue n = Len c →
     ∃ resp, handle (connWriter tls) c vbs req = Returned resp
             ∧ StatusCode resp = StatusPartialContent
             ∧ Body resp = []
             ∧ RespHeader resp !! "Content-Length" = Some ["0"])
  ∧ (decimalValue n > Len c →
     ∃ resp, handle (connWriter tls) c vbs req = Returned resp
             ∧ StatusCode resp = StatusBadRequest).
Proof.
  intros Hn Hc. pose proof (Len_range c) as HL. pose proof (DIGITS_value n Hn) as H0.
  assert (∀ k, 0 <= k <= Len c → outOfRange c k k = false) as Hkk.
  { intros k Hk. unfold outOfRange.
    destruct (Z.ltb_spec k k); [lia|]. destruct (Z.gtb_spec k (Len c)); [lia|].
    destruct (Z.ltb_spec k 0); [lia|done]. }
  rewrite (carries_response _ _ _ _ _ Hc) by done.
  unfold rangeResponse. rewrite parse_prefix by done. rewrite int64_Len.
  split_and!.
  - intros k Hk. destruct (ReadRange_inRange _ _ _ (Hkk k Hk)) as [E _].
    rewrite Z.sub_diag in E. exact E.
  - intros E. eexists. split; [done|]. unfold maxUint64.
    destruct (Z.leb_spec (decimalValue n) (2 ^ 64 - 1)); [|lia].
    rewrite E, int64_Len, Z.sub_diag. change (int64 0) with 0.
    rewrite Z.add_0_r, int64_Len, (Hkk (Len c)) by lia.
    split_and!; [done| |].
    + simpl. by rewrite Z.add_0_r, int64_Len, Z.sub_diag.
    + apply (partialContent_header tls c (Len c) 0).
  - intros Hgt. eexists. split; [done|]. unfold maxUint64.
    destruct (Z.leb_spec (decimalValue n) (2 ^ 64 - 1)) as [Hfit|]; [|done].
    set (o := int64 (decimalValue n)).
    set (l := int64 (Len c - o)).
    assert (int64 (o + l) = Len c) as ->.
    { destruct (int64_congr (Len c - o)) as [k Hk].
      apply (int64_of_congr _ _ (- k)); [done|]. unfold l. lia. }
    assert (outOfRange c o (Len c) = true) as ->; [|done].
    unfold outOfRange, o.
    destruct (Z_lt_dec (decimalValue n) (2 ^ 63)) as [Hs|Hs].
    + rewrite int64_small by lia.
      destruct (Z.ltb_spec (Len c) (decimalValue n)); [done|lia].
    + assert (int64 (decimalValue n) = decimalValue n - 2 ^ 64) as ->.
      { apply (int64_of_congr _ _ (-1)); lia. }
      destruct (Z.ltb_spec (decimalValue n - 2 ^ 64) 0); [|lia].
      apply orb_true_r.
Qed.

Lemma C9_open_prefix_at_end_witness :
  (∃ resp, httpHandler false (mkRequest "GET" {[ "Range" := ["bytes=4000-"] ]} ∅)
           = Returned resp
           ∧ StatusCode resp = 206 ∧ Body resp = []
           ∧ RespHeader resp !! "Content-Length" = Some ["0"])
  ∧ (∃ resp, httpHandler false (mkRequest "GET" ∅ {[ "range" := ["bytes=4001-"] ]})
             = Returned resp
             ∧ StatusCode resp = 400).
Proof.
  split.
  - apply (C9_open_prefix_at_end false newContents false
             (mkRequest "GET" {[ "Range" := ["bytes=4000-"] ]} ∅) "4000");
      [reflexivity | split; reflexivity | reflexivity].
  - apply (C9_open_prefix_at_end false newContents false
             (mkRequest "GET" ∅ {[ "range" := ["bytes=4001-"] ]}) "4001");
      [reflexivity | split; reflexivity | vm_compute; reflexivity].
Defined.

(** ** Claims on the parser *)

(** C5, as the code has it: the parser computes the formulas of the
    specification in 64-bit arithmetic and clamps nothing.  A number up to
    [2^64 - 1] is read as a [uint64] and cast to [int64]; a larger one is
    refused with an error.  For numbers below [2^63] and a content size
    that is a non-negative [int64], the suffix form gives
    [(contentSize - N, N)], also when [N] exceeds [contentSize]; the
    open-prefix form gives [(N, contentSize - N)]; the full form gives
    [(A, B - A + 1)]. *)
Theorem C5_parser_formulas (a b : string) (cs : Z) :
  isDIGITS a = true → isDIGITS b = true → 0 <= cs < 2 ^ 63 →
  (decimalValue a <= maxUint64 →
     offsetAndLenFromRange (specifier "" a) cs
       = (int64 (cs - int64 (decimalValue a)), int64 (decimalValue a), None)
     ∧ offsetAndLenFromRange (specifier a "") cs
       = (int64 (decimalValue a), int64 (cs - int64 (decimalValue a)), None))
  ∧ (decimalValue a <= maxUint64 → decimalValue b <= maxUint64 →
     offsetAndLenFromRange (specifier a b) cs
       = (int64 (decimalValue a),
          int64 (int64 (uint64 (decimalValue b - decimalValue a)) + 1), None))
  ∧ (decimalValue a < 2 ^ 63 →
     offsetAndLenFromRange (specifier "" a) cs = (cs - decimalValue a, decimalValue a, None)
     ∧ offsetAndLenFromRange (specifier a "") cs = (decimalValue a, cs - decimalValue a, None))
  ∧ (decimalValue a < 2 ^ 63 → decimalValue b < 2 ^ 63 →
     decimalValue b - decimalValue a + 1 < 2 ^ 63 →
     offsetAndLenFromRange (specifier a b) cs
       = (decimalValue a, decimalValue b - decimalValue a + 1, None))
  ∧ (maxUint64 < decimalValue a →
     offsetAndLenFromRange (specifier "" a) cs = (-1, -1, Some errInvalidRangeStr)
     ∧ offsetAndLenFromRange (specifier a "") cs
       = (-1, -1, Some (errNum (rangeError fnParseUint a)))
     ∧ offsetAndLenFromRange (specifier a b) cs
       = (-1, -1, Some (errNum (rangeError fnParseUint a)))).
Proof.
  intros Ha Hb Hcs.
  pose proof (DIGITS_value a Ha) as HA. pose proof (DIGITS_value b Hb) as HB.
  pose proof (parse_suffix a cs Ha) as Hsuf.
  pose proof (parse_prefix a cs Ha) as Hpre.
  pose proof (parse_full a b cs Ha Hb) as Hfull.
  rewrite (int64_small cs) in Hpre by lia.
  unfold maxUint64 in *.
  split_and!.
  - intros Hfit. destruct (Z.leb_spec (decimalValue a) (2 ^ 64 - 1)); [done|lia].
  - intros Hfa Hfb.
    destruct (Z.leb_spec (decimalValue a) (2 ^ 64 - 1)); [|lia].
    destruct (Z.leb_spec (decimalValue b) (2 ^ 64 - 1)); [done|lia].
  - intros Hsm. destruct (Z.leb_spec (decimalValue a) (2 ^ 64 - 1)); [|lia].
    rewrite Hsuf, Hpre. rewrite (int64_small (decimalValue a)) by lia.
    rewrite int64_small by lia. done.
  - intros Hsa Hsb Hlen.
    destruct (Z.leb_spec (decimalValue a) (2 ^ 64 - 1)); [|lia].
    destruct (Z.leb_spec (decimalValue b) (2 ^ 64 - 1)); [|lia].
    rewrite Hfull. rewrite (int64_small (decimalValue a)) by lia.
    destruct (uint64_congr (decimalValue b - decimalValue a)) as [k Hk].
    rewrite (int64_of_congr (decimalValue b - decimalValue a)
               (uint64 (decimalValue b - decimalValue a)) (- k)) by lia.
    rewrite int64_small by lia. done.
  - intros Hbig. rewrite Hsuf, Hpre, Hfull.
    destruct (Z.leb_spec (decimalValue a) (2 ^ 64 - 1)); [lia|done].
Qed.

Lemma C5_parser_formulas_witness :
  offsetAndLenFromRange (specifier "" "5000") 4000 = (4000 - 5000, 5000, None)
  ∧ offsetAndLenFromRange (specifier "5000" "") 4000 = (5000, 4000 - 5000, None).
Proof.
  apply (C5_parser_formulas "5000" "7" 4000); [reflexivity|reflexivity|lia|].
  vm_compute. reflexivity.
Defined.

(** C5 as stated fails on large numbers: the suffix form with [N = 2^63]
    yields the length [- 2^63], not [N]; the full form ["0-(2^63 - 1)"]
    yields the length [- 2^63], not [2^63]; a number from [2^64] on yields no
    pair at all. *)
Lemma C5_counterexample :
  isDIGITS "9223372036854775808" = true
  ∧ decimalValue "9223372036854775808" = 2 ^ 63
  ∧ offsetAndLenFromRange "bytes=-9223372036854775808" 4000
    = (4000 - 2 ^ 63, - 2 ^ 63, None)
  ∧ offsetAndLenFromRange "bytes=0-9223372036854775807" 4000 = (0, - 2 ^ 63, None)
  ∧ offsetAndLenFromRange "bytes=18446744073709551616-" 4000
    = (-1, -1, Some (errNum (rangeError fnParseUint "18446744073709551616"))).
Proof. by vm_compute. Qed.

(** C2, as the code has it: with the prefix ["bytes="] and exactly two
    tokens, a token that is not a number makes the parser return the error
    of [strconv.ParseUint] when the first token is not empty (open-prefix and
    full form); in the suffix form (first token empty) it makes the parser
    return [errInvalidRangeStr], the error of a missing prefix and of a wrong
    token count. *)
Theorem C2_non_numeric_token (s t0 t1 : string) (cs : Z) :
  HasPrefix s "bytes=" = true → Split (sliceFrom 6 s) "-" = [t0; t1] →
  (t0 ≠ "" →
   numericToken t0 = false ∨ (t1 ≠ "" ∧ numericToken t1 = false) →
   ∃ e, offsetAndLenFromRange s cs = (-1, -1, Some (errNum e)))
  ∧ (t0 = "" → numericToken t1 = false →
     offsetAndLenFromRange s cs = (-1, -1, Some errInvalidRangeStr)).
Proof.
  intros Hp Hs. rewrite (offsetAndLen_tokens s t0 t1 cs Hp Hs). split.
  - intros H0 Hbad. rewrite (eqb_nonempty t0 H0).
    destruct (String.eqb t1 "") eqn:E1.
    + destruct Hbad as [Hbad|[H1 _]].
      * destruct (ParseUint_not_digits _ Hbad) as [e ->]. eauto.
      * apply String.eqb_eq in E1. done.
    + destruct Hbad as [Hbad|[_ Hbad]].
      * destruct (ParseUint_not_digits _ Hbad) as [e ->]. eauto.
      * destruct (ParseUint (TrimSpace t0)) as [start|e]; [|eauto].
        destruct (ParseUint_not_digits _ Hbad) as [e ->]. eauto.
  - intros -> Hbad. simpl.
    by destruct (ParseUint_not_digits _ Hbad) as [e ->].
Qed.

Lemma C2_non_numeric_token_witness :
  (∃ e, offsetAndLenFromRange "bytes=abc-123" 4000 = (-1, -1, Some (errNum e)))
  ∧ offsetAndLenFromRange "bytes=-abc" 4000 = (-1, -1, Some errInvalidRangeStr).
Proof.
  split.
  - apply (C2_non_numeric_token "bytes=abc-123" "abc" "123" 4000);
      [reflexivity | reflexivity | discriminate | left; reflexivity].
  - apply (C2_non_numeric_token "bytes=-abc" "" "abc" 4000); reflexivity.
Defined.

(** C2 as stated fails in the suffix form: ["bytes=-abc"] has the prefix
    and two tokens of which ["abc"] is no number, and the parser returns
    [errInvalidRangeStr], not the error of [ParseUint]. *)
Lemma C2_counterexample :
  HasPrefix "bytes=-abc" "bytes=" = true
  ∧ Split (sliceFrom 6 "bytes=-abc") "-" = [""; "abc"]
  ∧ numericToken "abc" = false
  ∧ offsetAndLenFromRange "bytes=-abc" 4000 = (-1, -1, Some errInvalidRangeStr)
  ∧ ∀ e, errInvalidRangeStr ≠ errNum e.
Proof. split_and!; try reflexivity. intros e. discriminate. Qed.

(** C10: the parser cuts the white space around each number before it
    reads it, so ASCII white space put around the digits of a specifier, in
    any of the three forms, changes nothing in the result. *)
Theorem C10_spaces_around_digits (a b w1 w2 w3 w4 : string) (cs : Z) :
  isDIGITS a = true → isDIGITS b = true →
  allSpace w1 = true → allSpace w2 = true → allSpace w3 = true → allSpace w4 = true →
  offsetAndLenFromRange (specifier (w1 +:+ a +:+ w2) (w3 +:+ b +:+ w4)) cs
    = offsetAndLenFromRange (specifier a b) cs
  ∧ offsetAndLenFromRange (specifier (w1 +:+ a +:+ w2) "") cs
    = offsetAndLenFromRange (specifier a "") cs
  ∧ offsetAndLenFromRange (specifier "" (w3 +:+ b +:+ w4)) cs
    = offsetAndLenFromRange (specifier "" b) cs.
Proof.
  intros Ha Hb H1 H2 H3 H4.
  assert (∀ w w' d, allSpace w = true → allSpace w' = true → isDIGITS d = true →
            noDash (w +:+ d +:+ w') = true ∧ String.eqb (w +:+ d +:+ w') "" = false
            ∧ TrimSpace (w +:+ d +:+ w') = TrimSpace d) as Hpad.
  { intros w w' d Hw Hw' Hd. split_and!.
    - rewrite !allChars_app. rewrite (DIGITS_noDash d Hd).
      rewrite (allChars_impl _ _ w space_notDash Hw).
      by rewrite (allChars_impl _ _ w' space_notDash Hw').
    - apply eqb_nonempty. intros E.
      apply (f_equal (allChars (λ _, false))) in E. rewrite !allChars_app in E.
      pose proof (DIGITS_nonempty d Hd). destruct d; [done|].
      simpl in E. by rewrite andb_false_r in E.
    - by rewrite TrimSpace_padded, TrimSpace_digits. }
  destruct (Hpad w1 w2 a H1 H2 Ha) as (Na & Ea & Ta).
  destruct (Hpad w3 w4 b H3 H4 Hb) as (Nb & Eb & Tb).
  pose proof (DIGITS_noDash a Ha) as Da. pose proof (DIGITS_noDash b Hb) as Db.
  pose proof (DIGITS_nonempty a Ha) as Za. pose proof (DIGITS_nonempty b Hb) as Zb.
  split_and!.
  - rewrite (offsetAndLen_tokens _ (w1 +:+ a +:+ w2) (w3 +:+ b +:+ w4));
      [|apply specifier_prefix|by apply Split_specifier].
    rewrite (offsetAndLen_tokens _ a b);
      [|apply specifier_prefix|by apply Split_specifier].
    by rewrite Ea, Eb, Ta, Tb, Za, Zb.
  - rewrite (offsetAndLen_tokens _ (w1 +:+ a +:+ w2) "");
      [|apply specifier_prefix|by apply Split_specifier].
    rewrite (offsetAndLen_tokens _ a "");
      [|apply specifier_prefix|by apply Split_specifier].
    by rewrite Ea, Ta, Za.
  - rewrite (offsetAndLen_tokens _ "" (w3 +:+ b +:+ w4));
      [|apply specifier_prefix|by apply Split_specifier].
    rewrite (offsetAndLen_tokens _ "" b);
      [|apply specifier_prefix|by apply Split_specifier].
    by rewrite Tb.
Qed.

Lemma C10_spaces_around_digits_witness :
  offsetAndLenFromRange "bytes= 0 - 100" 4000 = offsetAndLenFromRange "bytes=0-100" 4000
  ∧ offsetAndLenFromRange "bytes= 0 -" 4000 = offsetAndLenFromRange "bytes=0-" 4000
  ∧ offsetAndLenFromRange "bytes=- 100" 4000 = offsetAndLenFromRange "bytes=-100" 4000.
Proof.
  exact (C10_spaces_around_digits "0" "100" " " " " " " "" 4000
           eq_refl eq_refl eq_refl eq_refl eq_refl eq_refl).
Defined.

(** ** The probes of the client, run against the handlers *)

Example probe_start :
  summary (httpHandler false (mkRequest "GET" {[ "Range" := ["bytes=0-1000"] ]} ∅))
  = Some (206, "bytes 0-1000/4000", "1001", 1001%nat).
Proof. by vm_compute. Qed.

Example probe_mid :
  summary (httpsHandler false (mkRequest "GET" {[ "X-Dolt-Range" := ["bytes=2500-2599"] ]} ∅))
  = Some (206, "bytes 2500-2599/4000", "100", 100%nat).
Proof. by vm_compute. Qed.

Example probe_end :
  summary (httpHandler false (mkRequest "GET" ∅ {[ "range" := ["bytes=-80"] ]}))
  = Some (206, "bytes 3920-3999/4000", "80", 80%nat).
Proof. by vm_compute. Qed.

Example probe_all :
  summary (httpHandler false (mkRequest "GET" ∅ ∅)) = Some (200, "", "4000", 4000%nat).
Proof. by vm_compute. Qed.

Example probe_bad_number :
  summary (httpHandler false (mkRequest "GET" {[ "Range" := ["bytes=abc-123"] ]} ∅))
  = Some (400, "", "", 0%nat).
Proof. by vm_compute. Qed.


(** * The rest of the server *)

(** ** Neither panic of the handler can fire *)

Lemma writeContentRange_returns w c s vbs :
  ∃ w', writeContentRange w c s vbs = Returned w'
        ∧ (wroteHeader w = false →
           wroteHeader w' = true
           ∧ (status w' = StatusPartialContent ∨ status w' = StatusBadRequest)).
Proof.
  unfold writeContentRange. rewrite int64_Len.
  destruct (offsetAndLenFromRange s (Len c)) as [[o l] [e|]] eqn:Hp.
  { eexists. split; [done|]. intros Hw. unfold WriteHeader. rewrite Hw. simpl. auto. }
  destruct (outOfRange c o (int64 (o + l))) eqn:Hr.
  { rewrite (ReadRange_outOfRange _ _ _ Hr). simpl.
    eexists. split; [done|]. intros Hw. unfold WriteHeader. rewrite Hw. simpl. auto. }
  destruct (ReadRange_inRange _ _ _ Hr) as [-> Hlen].
  destruct (inRange_exact _ _ _ _ Hp Hr) as (Hsum & Ho & Hl & Hle).
  simpl. rewrite Hlen, Hsum. replace (o + l - o) with l by lia.
  rewrite (int64_small l) by (pose proof (Len_range c); lia).
  rewrite Z.eqb_refl. simpl.
  eexists. split; [done|]. intros Hw. unfold WriteHeader, AddHeader. simpl.
  rewrite Hw. simpl. auto.
Qed.

(** X1: on a connection that takes the bytes, [serveContents] returns
    whatever the request, the store and the state of the writer: the panics
    after [w.Write] cannot fire.  On a writer that sent nothing yet it sends
    a status line, and the status is 200, 206 or 400, never 500. *)
Theorem serveContents_never_panics (w : ResponseWriter) (req : Request)
    (c : inMemContents) (vbs : bool) :
  ∃ w', serveContents w req c vbs = Returned w'
        ∧ (wroteHeader w = false →
           wroteHeader w' = true
           ∧ (status w' = StatusOK ∨ status w' = StatusPartialContent
              ∨ status w' = StatusBadRequest)).
Proof.
  destruct (String.eqb (Method req) MethodGet) eqn:Hm.
  - rewrite serveContents_dispatch by done. cbv zeta.
    destruct (String.eqb (selectSpecifier req) "").
    + eexists. split; [done|]. intros Hw. unfold Write, WriteHeader, AddHeader. simpl.
      rewrite Hw. simpl. auto.
    + destruct (writeContentRange_returns (AddHeader "Accept-Ranges" "bytes" w) c
                  (selectSpecifier req) vbs) as (w' & -> & H).
      exists w'. split; [done|]. intros Hw. destruct (H Hw) as [? [?|?]]; auto.
  - unfold serveContents. rewrite Hm. simpl.
    eexists. split; [done|]. intros Hw. unfold WriteHeader. rewrite Hw. simpl. auto.
Qed.

(** ** Requests with another method *)

(** X2: a request whose method is not exactly ["GET"] gets the status 400
    and the fixed text as body; the range channels and the store play no
    part, and the handler adds no header. *)
Theorem not_get_response (tls : bool) (c : inMemContents) (vbs : bool) (req : Request) :
  Method req ≠ MethodGet →
  handle (connWriter tls) c vbs req
  = Returned (mkResponse StatusBadRequest (handlerHeader (connWriter tls)) notGetBody).
Proof.
  intros Hm. apply String.eqb_neq in Hm.
  rewrite handle_response. unfold expectedResponse. by rewrite Hm.
Qed.

Lemma not_get_response_witness :
  httpHandler true (mkRequest "get" {[ "Range" := ["bytes=0-1"] ]} ∅)
  = Returned (mkResponse 400 ∅ notGetBody).
Proof.
  apply (not_get_response false newContents true
           (mkRequest "get" {[ "Range" := ["bytes=0-1"] ]} ∅)).
  discriminate.
Defined.

(** ** The header of the TLS listener *)

Lemma Header_Add_keeps (h : gmap string (list string)) k v k' x :
  CanonicalMIMEHeaderKey k ≠ k' → h !! k' = x → Header_Add h k v !! k' = x.
Proof. intros Hk <-. by apply Header_Add_other. Qed.


(** ** Windows of the store *)

Lemma fits_Len c : fits c → Len c = Z.of_nat (length (contents c)).
Proof. intros H. unfold Len. apply int64_small. unfold fits in H. lia. Qed.

Lemma window_length c o n :
  fits c → 0 <= o → 0 <= n → o + n <= Len c → Z.of_nat (length (window c o n)) = n.
Proof.
  intros Hf Ho Hn Hle. rewrite (fits_Len c Hf) in Hle. unfold window.
  rewrite length_take, length_drop. lia.
Qed.

Lemma window_app c o n m :
  0 <= o → 0 <= n → 0 <= m → (window c o n ++ window c (o + n) m)%list = window c o (n + m).
Proof.
  intros Ho Hn Hm. unfold window.
  replace (Z.to_nat (o + n)) with (Z.to_nat o + Z.to_nat n)%nat by lia.
  replace (Z.to_nat (n + m)) with (Z.to_nat n + Z.to_nat m)%nat by lia.
  rewrite <- drop_drop. apply take_take_drop.
Qed.

Lemma window_to_end c o :
  fits c → 0 <= o → window c o (Len c - o) = drop (Z.to_nat o) (contents c).
Proof.
  intros Hf Ho. unfold window. rewrite (fits_Len c Hf).
  apply take_ge. rewrite length_drop. lia.
Qed.

Lemma ReadRange_window c start end_ :
  0 <= start → start <= end_ → end_ <= Len c →
  ReadRange c start end_ = Returned (window c start (end_ - start), None).
Proof.
  intros H0 H1 H2.
  assert (outOfRange c start end_ = false) as Hr.
  { unfold outOfRange. destruct (Z.ltb_spec end_ start); [lia|].
    destruct (Z.gtb_spec end_ (Len c)); [lia|]. destruct (Z.ltb_spec start 0); [lia|done]. }
  by destruct (ReadRange_inRange _ _ _ Hr) as [-> _].
Qed.

(** X4: windows of the store compose: two reads that meet at an index
    give, one after the other, the read over both; and the read from 0 to
    [Len()] is [ReadAll()]. *)
Theorem ReadRange_compose (c : inMemContents) (i j k : Z) :
  fits c → 0 <= i → i <= j → j <= k → k <= Len c →
  (∃ x y, ReadRange c i j = Returned (x, None)
          ∧ ReadRange c j k = Returned (y, None)
          ∧ ReadRange c i k = Returned ((x ++ y)%list, None))
  ∧ ReadRange c 0 (Len c) = Returned (ReadAll c, None).
Proof.
  intros Hf Hi Hj Hk HL. split.
  - exists (window c i (j - i)), (window c j (k - j)).
    rewrite !ReadRange_window by lia. split_and!; [done|done|].
    replace j with (i + (j - i)) at 2 by lia.
    rewrite window_app by lia. do 3 f_equal. lia.
  - rewrite ReadRange_window by lia. rewrite Z.sub_0_r.
    pose proof (window_to_end c 0 Hf ltac:(lia)) as H. rewrite Z.sub_0_r in H.
    by rewrite H.
Qed.

Lemma ReadRange_compose_witness :
  (∃ x y, ReadRange newContents 10 20 = Returned (x, None)
          ∧ ReadRange newContents 20 45 = Returned (y, None)
          ∧ ReadRange newContents 10 45 = Returned ((x ++ y)%list, None))
  ∧ ReadRange newContents 0 (Len newContents) = Returned (ReadAll newContents, None).
Proof.
  apply (ReadRange_compose newContents 10 20 45); [by vm_compute|lia|lia|lia|].
  change (Len newContents) with 4000. lia.
Defined.

(** ** The three forms, served *)

Lemma rangeResponse_partial h c s o l :
  offsetAndLenFromRange s (Len c) = (o, l, None) →
  0 <= o → 0 <= l → o + l <= Len c →
  rangeResponse h c s = partialContent h c o l
  ∧ Body (partialContent h c o l) = window c o l
  ∧ int64 (int64 (o + l) - 1) = o + l - 1.
Proof.
  intros Hp Ho Hl Hle. pose proof (Len_range c).
  assert (int64 (o + l) = o + l) as Hsum by (apply int64_small; lia).
  unfold rangeResponse. rewrite Hp, Hsum.
  assert (outOfRange c o (o + l) = false) as ->.
  { unfold outOfRange. destruct (Z.ltb_spec (o + l) o); [lia|].
    destruct (Z.gtb_spec (o + l) (Len c)); [lia|]. destruct (Z.ltb_spec o 0); [lia|done]. }
  split_and!; [done| |].
  - unfold partialContent, window. cbn [Body]. cbv zeta. rewrite Hsum. do 2 f_equal. lia.
  - apply int64_small. lia.
Qed.

Lemma rangeResponse_refused h c s o l :
  offsetAndLenFromRange s (Len c) = (o, l, None) →
  outOfRange c o (int64 (o + l)) = true →
  rangeResponse h c s = badRequest h.
Proof. intros Hp Hr. unfold rangeResponse. by rewrite Hp, Hr. Qed.

Lemma rangeResponse_error h c s o l e :
  offsetAndLenFromRange s (Len c) = (o, l, Some e) → rangeResponse h c s = badRequest h.
Proof. intros Hp. unfold rangeResponse. by rewrite Hp. Qed.

Lemma partial_headers tls c o l :
  int64 (int64 (o + l) - 1) = o + l - 1 →
  RespHeader (partialContent (acceptRanges tls) c o l) !! "Content-Range"
    = Some [contentRange o (o + l - 1) (Len c)]
  ∧ RespHeader (partialContent (acceptRanges tls) c o l) !! "Content-Length"
    = Some [FormatInt l].
Proof.
  intros E. destruct (partialContent_header tls c o l) as (_ & HL & HR).
  rewrite E in HR. done.
Qed.

Lemma full_form_parse a b cs :
  isDIGITS a = true → isDIGITS b = true →
  decimalValue a <= decimalValue b < 2 ^ 63 - 1 →
  offsetAndLenFromRange (specifier a b) cs
  = (decimalValue a, decimalValue b - decimalValue a + 1, None).
Proof.
  intros Ha Hb Hab. pose proof (DIGITS_value a Ha). rewrite parse_full by done.
  unfold maxUint64.
  destruct (Z.leb_spec (decimalValue a) (2 ^ 64 - 1)); [|lia].
  destruct (Z.leb_spec (decimalValue b) (2 ^ 64 - 1)); [|lia].
  rewrite (int64_small (decimalValue a)) by lia.
  rewrite uint64_small by lia.
  rewrite (int64_small (decimalValue b - decimalValue a)) by lia.
  rewrite int64_small by lia. done.
Qed.

Lemma full_form_served tls c vbs req a b :
  isDIGITS a = true → isDIGITS b = true → carries req (specifier a b) →
  decimalValue a <= decimalValue b → decimalValue b < Len c →
  handle (connWriter tls) c vbs req
  = Returned (partialContent (acceptRanges tls) c (decimalValue a)
                (decimalValue b - decimalValue a + 1))
  ∧ Body (partialContent (acceptRanges tls) c (decimalValue a)
            (decimalValue b - decimalValue a + 1))
    = window c (decimalValue a) (decimalValue b - decimalValue a + 1)
  ∧ int64 (int64 (decimalValue a + (decimalValue b - decimalValue a + 1)) - 1)
    = decimalValue a + (decimalValue b - decimalValue a + 1) - 1.
Proof.
  intros Ha Hb Hc Hab HL. pose proof (Len_range c). pose proof (DIGITS_value a Ha).
  rewrite (carries_response _ _ _ _ _ Hc) by done.
  destruct (rangeResponse_partial (acceptRanges tls) c (specifier a b) (decimalValue a)
              (decimalValue b - decimalValue a + 1)) as (-> & HB & HE);
    [by apply full_form_parse; [..|lia]|lia|lia|lia|].
  done.
Qed.

(** X5: a full form ["bytes=A-B"] with [A <= B] inside the store gets
    the status 206, the bytes [A] to [B] of the store as body, which are
    [B - A + 1] bytes, and the headers [Content-Range: bytes A-B/Len] and
    [Content-Length: B-A+1].  With [B] at or beyond the length of the store
    the window is not cut back to the store: the response is 400, with one
    exception: for [A = 0] and [B = 2^64 - 1] the length wraps around to zero
    and the response is 206 with an empty body. *)
Theorem serve_full_form (tls : bool) (c : inMemContents) (vbs : bool) (req : Request)
    (a b : string) :
  fits c → isDIGITS a = true → isDIGITS b = true → carries req (specifier a b) →
  decimalValue a <= decimalValue b →
  ∃ resp, handle (connWriter tls) c vbs req = Returned resp
    ∧ if decimalValue b <? Len c then
        StatusCode resp = StatusPartialContent
        ∧ Body resp = window c (decimalValue a) (decimalValue b - decimalValue a + 1)
        ∧ Z.of_nat (length (Body resp)) = decimalValue b - decimalValue a + 1
        ∧ RespHeader resp !! "Content-Range"
          = Some [contentRange (decimalValue a) (decimalValue b) (Len c)]
        ∧ RespHeader resp !! "Content-Length"
          = Some [FormatInt (decimalValue b - decimalValue a + 1)]
      else if (decimalValue a =? 0) && (decimalValue b =? maxUint64) then
        StatusCode resp = StatusPartialContent ∧ Body resp = []
      else StatusCode resp = StatusBadRequest.
Proof.
  intros Hf Ha Hb Hc Hab.
  pose proof (Len_range c) as HL. pose proof (DIGITS_value a Ha) as HA.
  pose proof (fits_Len c Hf) as HLen.
  destruct (Z.ltb_spec (decimalValue b) (Len c)) as [Hin|Hout].
  - destruct (full_form_served tls c vbs req a b Ha Hb Hc Hab Hin) as (-> & HB & HE).
    eexists. split; [done|]. split_and!; [done|done| | |].
    + rewrite HB. apply window_length; [done|lia..].
    + destruct (partial_headers tls c _ _ HE) as [-> _]. do 3 f_equal. lia.
    + by destruct (partial_headers tls c _ _ HE) as [_ ->].
  - rewrite (carries_response _ _ _ _ _ Hc) by done.
    eexists. split; [done|].
    pose proof (parse_full a b (Len c) Ha Hb) as Hp. unfold maxUint64 in *.
    destruct (Z.leb_spec (decimalValue a) (2 ^ 64 - 1)) as [Hfa|Hfa].
    2:{ rewrite (rangeResponse_error _ _ _ _ _ _ Hp).
        destruct (Z.eqb_spec (decimalValue a) 0); [lia|done]. }
    destruct (Z.leb_spec (decimalValue b) (2 ^ 64 - 1)) as [Hfb|Hfb].
    2:{ rewrite (rangeResponse_error _ _ _ _ _ _ Hp).
        destruct (Z.eqb_spec (decimalValue b) (2 ^ 64 - 1)); [lia|].
        by rewrite andb_false_r. }
    rewrite uint64_small in Hp by lia.
    set (o := int64 (decimalValue a)) in *.
    set (d := int64 (decimalValue b - decimalValue a)) in *.
    set (l := int64 (d + 1)) in *.
    set (e := int64 (o + l)).
    destruct (int64_congr (decimalValue a)) as [k1 Hk1]. fold o in Hk1.
    destruct (int64_congr (decimalValue b - decimalValue a)) as [k2 Hk2]. fold d in Hk2.
    destruct (int64_congr (d + 1)) as [k3 Hk3]. fold l in Hk3.
    destruct (int64_congr (o + l)) as [k4 Hk4]. fold e in Hk4.
    pose proof (int64_range (decimalValue a)) as Ro. fold o in Ro.
    pose proof (int64_range (d + 1)) as Rl. fold l in Rl.
    pose proof (int64_range (o + l)) as Re. fold e in Re.
    destruct ((decimalValue a =? 0) && (decimalValue b =? 2 ^ 64 - 1)) eqn:Hex.
    + apply andb_true_iff in Hex as [E0 E1].
      apply Z.eqb_eq in E0. apply Z.eqb_eq in E1.
      assert (o = 0) as Eo by lia. assert (l = 0) as El by lia.
      rewrite Eo, El in Hp.
      destruct (rangeResponse_partial (acceptRanges tls) c (specifier a b) 0 0 Hp)
        as (-> & HB & _); [lia..|].
      split; [done|]. rewrite HB. unfold window. by rewrite take_0.
    + rewrite (rangeResponse_refused _ _ _ _ _ Hp); [done|]. fold e.
      unfold outOfRange.
      destruct (Z.ltb_spec e o); [done|]. destruct (Z.gtb_spec e (Len c)); [done|].
      destruct (Z.ltb_spec o 0); [done|]. exfalso.
      apply andb_false_iff in Hex.
      assert (e = decimalValue b + 1 + (k1 + k2 + k3 + k4) * 2 ^ 64) as He by lia.
      assert (k1 = 0) by lia.
      assert (k1 + k2 + k3 + k4 = -1) as HK by lia.
      assert (decimalValue a = 0 ∧ decimalValue b = 2 ^ 64 - 1) as [E0 E1] by lia.
      destruct Hex as [Hex|Hex]; apply Z.eqb_neq in Hex; lia.
Qed.

Lemma serve_full_form_witness :
  ∃ resp, httpHandler false (mkRequest "GET" {[ "Range" := ["bytes=3990-4000"] ]} ∅)
          = Returned resp
          ∧ StatusCode resp = 400.
Proof.
  apply (serve_full_form false newContents false
           (mkRequest "GET" {[ "Range" := ["bytes=3990-4000"] ]} ∅) "3990" "4000").
  - by vm_compute.
  - reflexivity.
  - reflexivity.
  - split; reflexivity.
  - by vm_compute.
Defined.

Lemma suffix_form_served tls c vbs req n :
  fits c → isDIGITS n = true → carries req (specifier "" n) →
  decimalValue n <= Len c →
  handle (connWriter tls) c vbs req
  = Returned (partialContent (acceptRanges tls) c (Len c - decimalValue n) (decimalValue n))
  ∧ Body (partialContent (acceptRanges tls) c (Len c - decimalValue n) (decimalValue n))
    = drop (Z.to_nat (Len c - decimalValue n)) (contents c)
  ∧ int64 (int64 (Len c - decimalValue n + decimalValue n) - 1)
    = Len c - decimalValue n + decimalValue n - 1.
Proof.
  intros Hf Hn Hc Hle. pose proof (Len_range c). pose proof (DIGITS_value n Hn).
  rewrite (carries_response _ _ _ _ _ Hc) by done.
  pose proof (parse_suffix n (Len c) Hn) as Hp. unfold maxUint64 in Hp.
  destruct (Z.leb_spec (decimalValue n) (2 ^ 64 - 1)); [|lia].
  rewrite (int64_small (decimalValue n)) in Hp by lia.
  rewrite int64_small in Hp by lia.
  destruct (rangeResponse_partial (acceptRanges tls) c _ _ _ Hp) as (-> & HB & HE); [lia..|].
  split_and!; [done| |done].
  rewrite HB. pose proof (window_to_end c (Len c - decimalValue n) Hf ltac:(lia)) as Hw.
  by replace (Len c - (Len c - decimalValue n)) with (decimalValue n) in Hw by lia.
Qed.

(** X6: the suffix form ["bytes=-N"] with [N] up to the length of the
    store gets the status 206 and the last [N] bytes of the store, with
    [Content-Range: bytes (Len-N)-(Len-1)/Len] and [Content-Length: N]; for
    [N = 0] this is an empty body.  With [N] larger than the store the offset
    is negative and is not raised to zero: the response is 400. *)
Theorem serve_suffix_form (tls : bool) (c : inMemContents) (vbs : bool) (req : Request)
    (n : string) :
  fits c → isDIGITS n = true → carries req (specifier "" n) →
  ∃ resp, handle (connWriter tls) c vbs req = Returned resp
    ∧ if decimalValue n <=? Len c then
        StatusCode resp = StatusPartialContent
        ∧ Body resp = drop (Z.to_nat (Len c - decimalValue n)) (contents c)
        ∧ Z.of_nat (length (Body resp)) = decimalValue n
        ∧ RespHeader resp !! "Content-Range"
          = Some [contentRange (Len c - decimalValue n) (Len c - 1) (Len c)]
        ∧ RespHeader resp !! "Content-Length" = Some [FormatInt (decimalValue n)]
      else StatusCode resp = StatusBadRequest.
Proof.
  intros Hf Hn Hc.
  pose proof (Len_range c) as HL. pose proof (DIGITS_value n Hn) as HN.
  pose proof (fits_Len c Hf) as HLen.
  destruct (Z.leb_spec (decimalValue n) (Len c)) as [Hin|Hout].
  - destruct (suffix_form_served tls c vbs req n Hf Hn Hc Hin) as (-> & HB & HE).
    eexists. split; [done|]. split_and!; [done|done| | |].
    + rewrite HB, length_drop. lia.
    + destruct (partial_headers tls c _ _ HE) as [-> _]. do 3 f_equal. lia.
    + by destruct (partial_headers tls c _ _ HE) as [_ ->].
  - rewrite (carries_response _ _ _ _ _ Hc) by done.
    eexists. split; [done|].
    pose proof (parse_suffix n (Len c) Hn) as Hp. unfold maxUint64 in Hp.
    destruct (Z.leb_spec (decimalValue n) (2 ^ 64 - 1)) as [Hfn|Hfn].
    2:{ by rewrite (rangeResponse_error _ _ _ _ _ _ Hp). }
    set (l := int64 (decimalValue n)) in *.
    set (o := int64 (Len c - l)) in *.
    rewrite (rangeResponse_refused _ _ _ _ _ Hp); [done|].
    set (e := int64 (o + l)).
    destruct (int64_congr (decimalValue n)) as [k1 Hk1]. fold l in Hk1.
    destruct (int64_congr (Len c - l)) as [k2 Hk2]. fold o in Hk2.
    destruct (int64_congr (o + l)) as [k3 Hk3]. fold e in Hk3.
    pose proof (int64_range (Len c - l)) as Ro. fold o in Ro.
    pose proof (int64_range (o + l)) as Re. fold e in Re.
    assert (e = Len c) as -> by (apply (int64_unique _ _ (k2 + k3)); lia).
    unfold outOfRange.
    destruct (Z.ltb_spec (Len c) o); [done|]. destruct (Z.ltb_spec o 0); [|lia].
    apply orb_true_r.
Qed.

Lemma serve_suffix_form_witness :
  ∃ resp, httpHandler false (mkRequest "GET" {[ "Range" := ["bytes=-4001"] ]} ∅)
          = Returned resp
          ∧ StatusCode resp = 400.
Proof.
  apply (serve_suffix_form false newContents false
           (mkRequest "GET" {[ "Range" := ["bytes=-4001"] ]} ∅) "4001").
  - by vm_compute.
  - reflexivity.
  - split; reflexivity.
Defined.

Lemma open_prefix_served tls c vbs req n :
  fits c → isDIGITS n = true → carries req (specifier n "") →
  decimalValue n <= Len c →
  handle (connWriter tls) c vbs req
  = Returned (partialContent (acceptRanges tls) c (decimalValue n) (Len c - decimalValue n))
  ∧ Body (partialContent (acceptRanges tls) c (decimalValue n) (Len c - decimalValue n))
    = drop (Z.to_nat (decimalValue n)) (contents c)
  ∧ int64 (int64 (decimalValue n + (Len c - decimalValue n)) - 1)
    = decimalValue n + (Len c - decimalValue n) - 1.
Proof.
  intros Hf Hn Hc Hle. pose proof (Len_range c). pose proof (DIGITS_value n Hn).
  rewrite (carries_response _ _ _ _ _ Hc) by done.
  pose proof (parse_prefix n (Len c) Hn) as Hp. unfold maxUint64 in Hp.
  destruct (Z.leb_spec (decimalValue n) (2 ^ 64 - 1)); [|lia].
  rewrite int64_Len, (int64_small (decimalValue n)) in Hp by lia.
  rewrite int64_small in Hp by lia.
  destruct (rangeResponse_partial (acceptRanges tls) c _ _ _ Hp) as (-> & HB & HE); [lia..|].
  split_and!; [done| |done].
  rewrite HB. by apply window_to_end.
Qed.

(** X7: the open-prefix form ["bytes=N-"] with [N] up to the length of
    the store gets the status 206 and the store from index [N] to its end,
    with [Content-Range: bytes N-(Len-1)/Len] and [Content-Length: Len-N]. *)
Theorem serve_open_prefix_form (tls : bool) (c : inMemContents) (vbs : bool)
    (req : Request) (n : string) :
  fits c → isDIGITS n = true → carries req (specifier n "") →
  decimalValue n <= Len c →
  ∃ resp, handle (connWriter tls) c vbs req = Returned resp
    ∧ StatusCode resp = StatusPartialContent
    ∧ Body resp = drop (Z.to_nat (decimalValue n)) (contents c)
    ∧ Z.of_nat (length (Body resp)) = Len c - decimalValue n
    ∧ RespHeader resp !! "Content-Range"
      = Some [contentRange (decimalValue n) (Len c - 1) (Len c)]
    ∧ RespHeader resp !! "Content-Length" = Some [FormatInt (Len c - decimalValue n)].
Proof.
  intros Hf Hn Hc Hin. pose proof (DIGITS_value n Hn) as HN.
  pose proof (fits_Len c Hf) as HLen.
  destruct (open_prefix_served tls c vbs req n Hf Hn Hc Hin) as (-> & HB & HE).
  eexists. split; [done|]. split_and!; [done|done| | |].
  - rewrite HB, length_drop. lia.
  - destruct (partial_headers tls c _ _ HE) as [-> _]. do 3 f_equal. lia.
  - by destruct (partial_headers tls c _ _ HE) as [_ ->].
Qed.

Lemma serve_open_prefix_form_witness :
  ∃ resp, httpsHandler false (mkRequest "GET" ∅ {[ "Range" := ["bytes=3900-"] ]})
          = Returned resp
          ∧ StatusCode resp = 206
          ∧ Body resp = drop 3900 (contents newContents)
          ∧ Z.of_nat (length (Body resp)) = 4000 - 3900
          ∧ RespHeader resp !! "Content-Range" = Some ["bytes 3900-3999/4000"]
          ∧ RespHeader resp !! "Content-Length" = Some ["100"].
Proof.
  apply (serve_open_prefix_form true newContents false
           (mkRequest "GET" ∅ {[ "Range" := ["bytes=3900-"] ]}) "3900").
  - by vm_compute.
  - reflexivity.
  - split; reflexivity.
  - by vm_compute.
Defined.

(** X8: the bodies of adjacent ranges join: the body for ["bytes=A-B"]
    followed by the body for ["bytes=(B+1)-D"] is the body for ["bytes=A-D"],
    and followed by the body for ["bytes=(B+1)-"] it is the body for
    ["bytes=A-"]; from [A = 0] that is the whole content. *)
Theorem adjacent_ranges_join (tls : bool) (c : inMemContents) (vbs : bool)
    (a b b1 d : string) (r1 r2 r3 r4 r5 : Request) :
  fits c →
  isDIGITS a = true → isDIGITS b = true → isDIGITS b1 = true → isDIGITS d = true →
  decimalValue a <= decimalValue b → decimalValue b1 = decimalValue b + 1 →
  decimalValue b1 <= decimalValue d → decimalValue d < Len c →
  carries r1 (specifier a b) → carries r2 (specifier b1 d) → carries r3 (specifier a d) →
  carries r4 (specifier b1 "") → carries r5 (specifier a "") →
  ∃ p1 p2 p3 p4 p5,
    handle (connWriter tls) c vbs r1 = Returned p1
    ∧ handle (connWriter tls) c vbs r2 = Returned p2
    ∧ handle (connWriter tls) c vbs r3 = Returned p3
    ∧ handle (connWriter tls) c vbs r4 = Returned p4
    ∧ handle (connWriter tls) c vbs r5 = Returned p5
    ∧ (Body p1 ++ Body p2)%list = Body p3
    ∧ (Body p1 ++ Body p4)%list = Body p5
    ∧ (decimalValue a = 0 → Body p5 = ReadAll c).
Proof.
  intros Hf Ha Hb Hb1 Hd Hab Hnext Hbd HdL C1 C2 C3 C4 C5.
  pose proof (DIGITS_value a Ha) as HA.
  destruct (full_form_served tls c vbs r1 a b Ha Hb C1 Hab ltac:(lia)) as (-> & B1 & _).
  destruct (full_form_served tls c vbs r2 b1 d Hb1 Hd C2 Hbd HdL) as (-> & B2 & _).
  destruct (full_form_served tls c vbs r3 a d Ha Hd C3 ltac:(lia) HdL) as (-> & B3 & _).
  destruct (open_prefix_served tls c vbs r4 b1 Hf Hb1 C4 ltac:(lia)) as (-> & B4 & _).
  destruct (open_prefix_served tls c vbs r5 a Hf Ha C5 ltac:(lia)) as (-> & B5 & _).
  do 5 eexists. split_and!; try done.
  - rewrite B1, B2, B3.
    replace (decimalValue b1) with (decimalValue a + (decimalValue b - decimalValue a + 1))
      at 1 by lia.
    rewrite window_app by lia. f_equal. lia.
  - rewrite B1, B4, B5.
    rewrite <- (window_to_end c (decimalValue b1)) by (done || lia).
    rewrite <- (window_to_end c (decimalValue a)) by (done || lia).
    replace (decimalValue b1) with (decimalValue a + (decimalValue b - decimalValue a + 1))
      at 1 by lia.
    rewrite window_app by lia. f_equal. lia.
  - intros E. rewrite B5, E. done.
Qed.

Lemma adjacent_ranges_join_witness :
  ∃ p1 p2 p3 p4 p5,
    httpHandler false (mkRequest "GET" {[ "Range" := ["bytes=0-999"] ]} ∅) = Returned p1
    ∧ httpHandler false (mkRequest "GET" {[ "Range" := ["bytes=1000-2999"] ]} ∅) = Returned p2
    ∧ httpHandler false (mkRequest "GET" {[ "Range" := ["bytes=0-2999"] ]} ∅) = Returned p3
    ∧ httpHandler false (mkRequest "GET" {[ "Range" := ["bytes=1000-"] ]} ∅) = Returned p4
    ∧ httpHandler false (mkRequest "GET" {[ "Range" := ["bytes=0-"] ]} ∅) = Returned p5
    ∧ (Body p1 ++ Body p2)%list = Body p3
    ∧ (Body p1 ++ Body p4)%list = Body p5
    ∧ (decimalValue "0" = 0 → Body p5 = ReadAll newContents).
Proof.
  apply (adjacent_ranges_join false newContents false "0" "999" "1000" "2999");
    first [ by vm_compute | split; reflexivity ].
Defined.

(** ** The language of the parser *)

Lemma asNumber_ParseUint t :
  match ParseUint (TrimSpace t) with
  | Ok v => asNumber t = true ∧ v = decimalValue (TrimSpace t)
  | Failed _ => asNumber t = false
  end.
Proof.
  unfold asNumber. destruct (isDIGITS (TrimSpace t)) eqn:Hd.
  - rewrite (ParseUint_digits _ Hd).
    by destruct (decimalValue (TrimSpace t) <=? maxUint64).
  - by destruct (ParseUint_not_digits _ Hd) as [e ->].
Qed.

Lemma asNumber_true t : asNumber t = true → ∃ v, ParseUint (TrimSpace t) = Ok v.
Proof.
  intros H. pose proof (asNumber_ParseUint t) as P.
  destruct (ParseUint (TrimSpace t)); [eauto|congruence].
Qed.

Lemma asNumber_false t : asNumber t = false → ∃ e, ParseUint (TrimSpace t) = Failed e.
Proof.
  intros H. pose proof (asNumber_ParseUint t) as P.
  destruct (ParseUint (TrimSpace t)); [destruct P; congruence|eauto].
Qed.

Lemma tokens_specifier s t0 t1 :
  HasPrefix s "bytes=" = true → Split (sliceFrom 6 s) "-" = [t0; t1] →
  s = specifier t0 t1 ∧ noDash t0 = true ∧ noDash t1 = true.
Proof.
  intros Hp Hs. apply Split_two_inv in Hs as (E & H0 & H1).
  split_and!; [|done|done]. unfold specifier. rewrite <- E. by apply prefix_inv.
Qed.

(** X9: the parser accepts exactly the empty string, for which it
    returns the pair [(-1, -1)] that stands for no range, and the strings
    ["bytes=" t0 "-" t1] with no further ["-"] in which [t0] is empty and [t1]
    a number, or [t1] is empty and [t0] a number, or both are numbers, a
    number being decimal digits within white space with a value below
    [2^64].  Whenever it refuses, the pair it returns is [(-1, -1)]. *)
Theorem parser_accepts_exactly (s : string) (cs : Z) :
  ((∃ o l, offsetAndLenFromRange s cs = (o, l, None))
   ↔ s = "" ∨ ∃ t0 t1, s = specifier t0 t1 ∧ noDash t0 = true ∧ noDash t1 = true
                        ∧ accepted t0 t1 = true)
  ∧ offsetAndLenFromRange "" cs = (-1, -1, None)
  ∧ (∀ o l e, offsetAndLenFromRange s cs = (o, l, Some e) → o = -1 ∧ l = -1).
Proof.
  split_and!.
  - split.
    + intros (o & l & Hp). destruct (String.eqb_spec s "") as [->|Hne]; [by left|]. right.
      unfold offsetAndLenFromRange in Hp. rewrite (eqb_nonempty s Hne) in Hp.
      destruct (HasPrefix s "bytes=") eqn:Hpre; [|done]. simpl negb in Hp. cbv iota in Hp.
      destruct (Split (sliceFrom 6 s) "-") as [|t0 [|t1 [|??]]] eqn:Hs; try done.
      destruct (tokens_specifier s t0 t1 Hpre Hs) as (E & H0 & H1).
      exists t0, t1. split_and!; [done..|]. unfold accepted.
      pose proof (asNumber_ParseUint t0) as P0. pose proof (asNumber_ParseUint t1) as P1.
      destruct (String.eqb t0 "").
      * destruct (ParseUint (TrimSpace t1)); [by destruct P1|done].
      * destruct (String.eqb t1 "").
        -- destruct (ParseUint (TrimSpace t0)); [by destruct P0|done].
        -- destruct (ParseUint (TrimSpace t0)); [|done].
           destruct (ParseUint (TrimSpace t1)); [|done].
           destruct P0 as [-> _], P1 as [-> _]. done.
    + intros [->|(t0 & t1 & -> & H0 & H1 & Hacc)]; [by exists (-1), (-1)|].
      rewrite (offsetAndLen_tokens _ t0 t1); [|apply specifier_prefix|by apply Split_specifier].
      unfold accepted in Hacc. destruct (String.eqb t0 "").
      { destruct (asNumber_true _ Hacc) as [v ->]. eauto. }
      destruct (String.eqb t1 "").
      { destruct (asNumber_true _ Hacc) as [v ->]. eauto. }
      apply andb_true_iff in Hacc as [A0 A1].
      destruct (asNumber_true _ A0) as [v0 ->], (asNumber_true _ A1) as [v1 ->]. eauto.
  - done.
  - intros o l e. unfold offsetAndLenFromRange.
    repeat match goal with
    | |- context [if ?b then _ else _] => destruct b
    | |- context [match ?x with _ => _ end] => destruct x
    end; by intros [= <- <-].
Qed.

(** X10: the parser returns [errInvalidRangeStr] exactly for a non-empty
    string that lacks the prefix ["bytes="], or does not have exactly two
    tokens around one ["-"], or is a suffix form of which the second token is
    no number. *)
Theorem parser_format_error (s : string) (cs : Z) :
  offsetAndLenFromRange s cs = (-1, -1, Some errInvalidRangeStr)
  ↔ s ≠ ""
    ∧ (HasPrefix s "bytes=" = false
       ∨ length (Split (sliceFrom 6 s) "-") ≠ 2%nat
       ∨ ∃ t1, Split (sliceFrom 6 s) "-" = [""; t1] ∧ asNumber t1 = false).
Proof.
  unfold offsetAndLenFromRange.
  destruct (String.eqb_spec s "") as [->|Hne].
  { split; [done|]. by intros [? _]. }
  destruct (HasPrefix s "bytes=") eqn:Hpre; simpl negb; cbv iota.
  2:{ split; [|done]. intros _. split; [done|by left]. }
  destruct (Split (sliceFrom 6 s) "-") as [|t0 [|t1 [|??]]] eqn:Hs;
    try (split; [intros _; split; [done|right; left; simpl; lia]|done]).
  pose proof (asNumber_ParseUint t1) as P1.
  destruct (String.eqb_spec t0 "") as [->|H0].
  - destruct (ParseUint (TrimSpace t1)) as [v|e].
    + split; [done|]. intros [_ [?|[Hl|(t & [= <-] & Hn)]]]; [done|by simpl in Hl|].
      destruct P1. congruence.
    + split; [|done]. intros _. split; [done|]. right. right. eauto.
  - assert (∀ x : Z * Z * option error,
              (∀ o l, x ≠ (o, l, Some errInvalidRangeStr)) →
              x = (-1, -1, Some errInvalidRangeStr)
              ↔ s ≠ "" ∧ (true = false ∨ length [t0; t1] ≠ 2%nat
                          ∨ ∃ t, [t0; t1] = [""; t] ∧ asNumber t = false)) as Hno.
    { intros x Hx. split; [intros E; by apply Hx in E|].
      intros [_ [?|[Hl|(t & [= E _] & _)]]]; [done|by simpl in Hl|done]. }
    apply Hno. intros o l.
    destruct (String.eqb t1 "").
    + by destruct (ParseUint (TrimSpace t0)).
    + destruct (ParseUint (TrimSpace t0)); [|done]. by destruct (ParseUint (TrimSpace t1)).
Qed.


(** * The client *)

(** ** One request *)

Section OneRequest.

Context {N : Type} (urlOK : string → bool) (client : HttpClient N).

Lemma Header_Add_empty key value :
  Header_Add ∅ key value = {[ CanonicalMIMEHeaderKey key := [value] ]}.
Proof. unfold Header_Add. rewrite lookup_empty. simpl. apply insert_empty. Qed.

Lemma sendWithHeader_accepts url header vbs (w : world N) p0 p1 :
  urlOK url = true → Split header ":" = [p0; p1] →
  supportedHeader (TrimSpace p0) = true →
  sendWithHeader urlOK client url header vbs w
  = send client
      (mkClientRequest MethodGet url {[ CanonicalMIMEHeaderKey (TrimSpace p0) := [TrimSpace p1] ]})
      vbs w.
Proof.
  intros Hu Hs Hk. unfold sendWithHeader, NewRequest. rewrite Hu, Hs, Hk. simpl.
  by rewrite Header_Add_empty.
Qed.

(** X11: [sendWithHeader] sends nothing and prints nothing, and returns
    an error with status and length 0, when the URL is refused, when the
    header does not split at [":"] in exactly two parts (so also when the
    value holds a [":"]), or when the name, white space cut, is none of
    [Range], [range], [X-Dolt-Range], [x-dolt-range] as they are written. *)
Theorem sendWithHeader_refuses (url header : string) (vbs : bool) (w : world N) :
  urlOK url = false
  ∨ length (Split header ":") ≠ 2%nat
  ∨ (∃ p0 p1, Split header ":" = [p0; p1] ∧ supportedHeader (TrimSpace p0) = false) →
  ∃ e, sendWithHeader urlOK client url header vbs w = (w, (0, 0, Some e))
       ∧ ∀ msg, e ≠ errTransport msg.
Proof.
  unfold sendWithHeader, NewRequest.
  destruct (urlOK url); [|by eauto].
  intros [?|[Hl|(p0 & p1 & Hs & Hk)]]; [done| |].
  - destruct (Split header ":") as [|? [|? [|??]]]; by eauto.
  - rewrite Hs, Hk. simpl. by eauto.
Qed.

End OneRequest.

Lemma sendWithHeader_refuses_witness :
  ∃ e, sendWithHeader anyURL (through false false (httpHandler false))
         "http://127.0.0.1:1709" "RANGE: bytes=0-100" false (mkWorld [] [])
       = (mkWorld [] [], (0, 0, Some e))
       ∧ ∀ msg, e ≠ errTransport msg.
Proof.
  apply (sendWithHeader_refuses anyURL (through false false (httpHandler false))).
  right. right. exists "RANGE", " bytes=0-100". split; reflexivity.
Defined.

(** ** The network that changes nothing, and the middle box *)

Lemma Cut_without s sep : hasByte sep s = false → Cut s sep = (s, "", false).
Proof.
  induction s as [|c r IH]; [done|]. simpl. intros H.
  apply orb_false_iff in H as [Hc Hr]. by rewrite Hc, (IH Hr).
Qed.

Lemma Cut_app a b sep :
  hasByte sep a = false →
  Cut (a +:+ b) sep = let '(x, y, f) := Cut b sep in (a +:+ x, y, f).
Proof.
  induction a as [|c r IH]; unfold_app; simpl.
  { intros _. by destruct (Cut b sep) as [[??]?]. }
  intros H. apply orb_false_iff in H as [Hc Hr]. rewrite Hc, (IH Hr).
  by destruct (Cut b sep) as [[??]?].
Qed.

Lemma baseURL_bytes url :
  baseURL url = true → hasByte "?" url = false ∧ hasByte "#" url = false.
Proof.
  unfold baseURL. intros H. apply andb_true_iff in H as [H1 H2].
  by destruct (hasByte "?" url), (hasByte "#" url).
Qed.

Lemma rawQuery_base url : baseURL url = true → rawQuery url = "".
Proof.
  intros H. apply baseURL_bytes in H as [Hq Hf]. unfold rawQuery.
  by rewrite (Cut_without _ _ Hf), (Cut_without _ _ Hq).
Qed.

Lemma rawQuery_params url params :
  baseURL url = true → hasByte "#" params = false →
  rawQuery (url +:+ "/?" +:+ params) = params.
Proof.
  intros H Hp. apply baseURL_bytes in H as [Hq Hf]. unfold rawQuery.
  rewrite (Cut_app url _ "#" Hf). unfold_app. simpl.
  rewrite (Cut_without _ _ Hp). rewrite (Cut_app url _ "?" Hq). unfold_app. done.
Qed.

Lemma send_through hs q tls c svbs req vbs (w : world (list ClientRequest)) :
  send (through hs q (handle (connWriter tls) c svbs)) req vbs w
  = (mkWorld (net w ++ [req])%list (reports w),
     seen (expectedResponse (handlerHeader (connWriter tls)) c
             (strip hs q (serverRequest req)))).
Proof. unfold send, through. simpl. by rewrite handle_response. Qed.

Lemma supportedHeader_canonical key :
  supportedHeader key = true →
  CanonicalMIMEHeaderKey key = "Range" ∨ CanonicalMIMEHeaderKey key = "X-Dolt-Range".
Proof.
  unfold supportedHeader. rewrite !orb_true_iff, !String.eqb_eq.
  intros [[[->| ->]| ->]| ->]; auto.
Qed.



(** ** The battery *)

Lemma sampleRanges_list :
  map_to_list sampleRanges
  ≡ₚ [(sampleRangeStart, 1001); (sampleRangeMid, 100); (sampleRangeEnd, 80)].
Proof.
  unfold sampleRanges. rewrite !map_to_list_insert by done.
  by rewrite map_to_list_singleton.
Qed.

Lemma sampleParams_list :
  map_to_list sampleParams
  ≡ₚ [(sampleParamsStart, 1001); (sampleParamsMid, 100); (sampleParamsEnd, 80)].
Proof.
  unfold sampleParams. rewrite !map_to_list_insert by done.
  by rewrite map_to_list_singleton.
Qed.

Lemma sampleRanges_elem order k e :
  order ≡ₚ map_to_list sampleRanges → (k, e) ∈ order →
  (k, e) = (sampleRangeStart, 1001) ∨ (k, e) = (sampleRangeMid, 100)
  ∨ (k, e) = (sampleRangeEnd, 80).
Proof.
  intros Hp Hin. rewrite Hp, sampleRanges_list in Hin.
  rewrite !elem_of_cons, elem_of_nil in Hin. tauto.
Qed.

Lemma sampleParams_elem order k e :
  order ≡ₚ map_to_list sampleParams → (k, e) ∈ order →
  (k, e) = (sampleParamsStart, 1001) ∨ (k, e) = (sampleParamsMid, 100)
  ∨ (k, e) = (sampleParamsEnd, 80).
Proof.
  intros Hp Hin. rewrite Hp, sampleParams_list in Hin.
  rewrite !elem_of_cons, elem_of_nil in Hin. tauto.
Qed.

Lemma sample_order_length order (m : gmap string Z) :
  order ≡ₚ map_to_list m → size m = 3%nat → length order = 3%nat.
Proof. intros Hp Hs. by rewrite Hp, length_map_to_list. Qed.

(** A loop of which every request is sent and answered: one request per
    entry, and [k] reports per entry when every entry adds [k]. *)
Lemma probeEach_answered {N} arg
    (sendOne : string → world N → world N * (Z * Z * option clientError))
    what url entries (k : nat) (sent : world N → nat) :
  (∀ key e w, (key, e) ∈ entries →
     ∃ n st ln, sendOne (arg key) w = (mkWorld n (reports w), (st, ln, None))
                ∧ sent (mkWorld n (reports w)) = S (sent w)
                ∧ mismatches StatusPartialContent e (st, ln, None) = k) →
  (∀ n r r', sent (mkWorld n r) = sent (mkWorld n r')) →
  ∀ w, ∃ w' extra,
    probeEach arg sendOne what url entries w = (w', None)
    ∧ reports w' = (reports w ++ extra)%list
    ∧ length extra = (k * length entries)%nat
    ∧ sent w' = (sent w + length entries)%nat.
Proof.
  intros Hall Hsent. induction entries as [|[key e] rest IH]; intros w.
  { exists w, []. simpl. rewrite app_nil_r. split_and!; [done|done|lia|lia]. }
  destruct (Hall key e w ltac:(left)) as (n & st & ln & Hs & Hn & Hk).
  cbn [probeEach]. rewrite Hs. cbv zeta.
  match goal with |- context [probeEach _ _ _ _ rest ?x] => set (w1 := x) end.
  destruct (IH (λ key' e' w' Hin, Hall key' e' w' ltac:(by right)) w1)
    as (w' & extra & -> & Hr & Hl & Hc).
  assert (∃ first, reports w1 = (reports w ++ first)%list ∧ length first = k
                   ∧ sent w1 = S (sent w)) as (first & Hr1 & Hl1 & Hc1).
  { unfold mismatches in Hk. simpl in Hk. subst w1.
    destruct (negb (st =? StatusPartialContent)), (negb (ln =? e)); simpl in *.
    - eexists. split_and!; [rewrite <- app_assoc; reflexivity| simpl; lia |].
      unfold printf. simpl. by rewrite !(Hsent _ _ (reports w)).
    - eexists. split_and!; [reflexivity| simpl; lia |].
      unfold printf. simpl. by rewrite !(Hsent _ _ (reports w)).
    - eexists. split_and!; [reflexivity| simpl; lia |].
      unfold printf. simpl. by rewrite !(Hsent _ _ (reports w)).
    - exists []. split_and!; [by rewrite app_nil_r| simpl; lia |done]. }
  exists w', (first ++ extra)%list. split_and!; [done| | |].
  - by rewrite Hr, Hr1, app_assoc.
  - rewrite length_app. simpl. lia.
  - rewrite Hc, Hc1. simpl. lia.
Qed.

Section Battery.

Context (urlOK : string → bool) (url : string).
Hypothesis url_ok : urlOK url = true.
Hypothesis url_params_ok : ∀ params, urlOK (url +:+ "/?" +:+ params) = true.
Hypothesis url_base : baseURL url = true.

Lemma header_probe_through tls hs q svbs vbs name key e (w : world (list ClientRequest)) :
  name = "Range" ∨ name = "x-dolt-range" →
  (key, e) = (sampleRangeStart, 1001) ∨ (key, e) = (sampleRangeMid, 100)
  ∨ (key, e) = (sampleRangeEnd, 80) →
  ∃ r, sendWithHeader urlOK (through hs q (handle (connWriter tls) newContents svbs))
         url (name +:+ ": " +:+ key) vbs w
       = (mkWorld (net w ++ [r])%list (reports w),
          (if hs then (StatusOK, 4000, None) else (StatusPartialContent, e, None))).
Proof.
  intros Hname Hkey.
  assert (Split (name +:+ ": " +:+ key) ":" = [name; " " +:+ key]
          ∧ supportedHeader (TrimSpace name) = true) as [Hs Hk].
  { destruct Hname as [-> | ->], Hkey as [[= -> _]|[[= -> _]|[= -> _]]]; by vm_compute. }
  rewrite (sendWithHeader_accepts urlOK _ url _ vbs w _ _ url_ok Hs Hk).
  rewrite send_through. eexists. f_equal.
  unfold serverRequest. simpl. rewrite (rawQuery_base url url_base).
  destruct Hname as [-> | ->], Hkey as [[= -> ->]|[[= -> ->]|[= -> ->]]];
    destruct tls, hs, q; by vm_compute.
Qed.

Lemma params_probe_through tls hs q svbs vbs key e (w : world (list ClientRequest)) :
  (key, e) = (sampleParamsStart, 1001) ∨ (key, e) = (sampleParamsMid, 100)
  ∨ (key, e) = (sampleParamsEnd, 80) →
  ∃ r, sendWithParams urlOK (through hs q (handle (connWriter tls) newContents svbs))
         url key vbs w
       = (mkWorld (net w ++ [r])%list (reports w),
          (if q then (StatusOK, 4000, None) else (StatusPartialContent, e, None))).
Proof.
  intros Hkey. unfold sendWithParams, NewRequest. rewrite url_params_ok.
  rewrite send_through. eexists. f_equal.
  unfold serverRequest. simpl.
  rewrite (rawQuery_params url key url_base)
    by (destruct Hkey as [[= -> _]|[[= -> _]|[= -> _]]]; by vm_compute).
  destruct Hkey as [[= -> ->]|[[= -> ->]|[= -> ->]]];
    destruct tls, hs, q; by vm_compute.
Qed.

Lemma raw_probe_through tls hs q svbs vbs (w : world (list ClientRequest)) :
  ∃ r, sendRaw urlOK (through hs q (handle (connWriter tls) newContents svbs)) url vbs w
       = (mkWorld (net w ++ [r])%list (reports w), (StatusOK, contentMax, None)).
Proof.
  unfold sendRaw, NewRequest. rewrite url_ok, send_through. eexists. f_equal.
  unfold serverRequest. simpl. rewrite (rawQuery_base url url_base).
  destruct tls, hs, q; by vm_compute.
Qed.

Lemma battery_through tls hs q svbs vbs order1 order2 order3
    (w : world (list ClientRequest)) :
  order1 ≡ₚ map_to_list sampleRanges → order2 ≡ₚ map_to_list sampleRanges →
  order3 ≡ₚ map_to_list sampleParams →
  ∃ w' extra,
    sendSamples urlOK (through hs q (handle (connWriter tls) newContents svbs))
      order1 order2 order3 url vbs w = (w', None)
    ∧ reports w' = (reports w ++ extra)%list
    ∧ length extra = ((if hs then 12 else 0) + (if q then 6 else 0))%nat
    ∧ length (net w') = (length (net w) + 10)%nat.
Proof.
  intros H1 H2 H3.
  assert (∀ (n : list ClientRequest) (r r' : list string),
            length (net (mkWorld n r)) = length (net (mkWorld n r'))) as Hsent by done.
  assert (∀ name order, name = "Range" ∨ name = "x-dolt-range" →
            order ≡ₚ map_to_list sampleRanges →
            ∀ w0, ∃ w' extra,
              probeEach (λ headerBytes, name +:+ ": " +:+ headerBytes)
                (λ header, sendWithHeader urlOK
                   (through hs q (handle (connWriter tls) newContents svbs)) url header vbs)
                "header" url order w0 = (w', None)
              ∧ reports w' = (reports w0 ++ extra)%list
              ∧ length extra = (if hs then 6 else 0)%nat
              ∧ length (net w') = (length (net w0) + 3)%nat) as Hloop.
  { intros name order Hname Hp w0.
    destruct (probeEach_answered (λ headerBytes, name +:+ ": " +:+ headerBytes)
                (λ header, sendWithHeader urlOK
                   (through hs q (handle (connWriter tls) newContents svbs)) url header vbs)
                "header" url order (if hs then 2 else 0)%nat (λ x, length (net x)))
      with (w := w0) as (w' & extra & E & Hr & Hl & Hc); [|done|].
    - intros key e x Hin.
      destruct (header_probe_through tls hs q svbs vbs name key e x Hname
                  (sampleRanges_elem order key e Hp Hin)) as [r ->].
      destruct (sampleRanges_elem order key e Hp Hin) as [[= _ ->]|[[= _ ->]|[= _ ->]]];
        destruct hs; do 3 eexists;
        (split_and!; [done| simpl; rewrite length_app; simpl; lia |done]).
    - rewrite (sample_order_length order sampleRanges Hp eq_refl) in Hl, Hc.
      exists w', extra. split_and!; [done|done| |done]. destruct hs; simpl in Hl; lia. }
  unfold sendSamples.
  pose proof (Hloop "Range" order1 ltac:(by left) H1 w) as L.
  change (λ headerBytes, "Range" +:+ ": " +:+ headerBytes)
    with (λ headerBytes, "Range: " +:+ headerBytes) in L.
  destruct L as (w1 & x1 & -> & R1 & L1 & C1).
  pose proof (Hloop "x-dolt-range" order2 ltac:(by right) H2 w1) as L.
  change (λ headerBytes, "x-dolt-range" +:+ ": " +:+ headerBytes)
    with (λ headerBytes, "x-dolt-range: " +:+ headerBytes) in L.
  destruct L as (w2 & x2 & -> & R2 & L2 & C2).
  destruct (probeEach_answered (λ params, params)
              (λ params, sendWithParams urlOK
                 (through hs q (handle (connWriter tls) newContents svbs)) url params vbs)
              "params" url order3 (if q then 2 else 0)%nat (λ x, length (net x)))
    with (w := w2) as (w3 & x3 & -> & R3 & L3 & C3); [|done|].
  { intros key e x Hin.
    destruct (params_probe_through tls hs q svbs vbs key e x
                (sampleParams_elem order3 key e H3 Hin)) as [r ->].
    destruct (sampleParams_elem order3 key e H3 Hin) as [[= _ ->]|[[= _ ->]|[= _ ->]]];
      destruct q; do 3 eexists;
      (split_and!; [done| simpl; rewrite length_app; simpl; lia |done]). }
  rewrite (sample_order_length order3 sampleParams H3 eq_refl) in L3, C3.
  destruct (raw_probe_through tls hs q svbs vbs w3) as [r ->]. simpl.
  eexists. exists ((x1 ++ x2) ++ x3)%list. split_and!; [done| | |].
  - simpl. by rewrite R3, R2, R1, !app_assoc.
  - rewrite !length_app, L1, L2, L3. destruct hs, q; simpl; lia.
  - simpl. rewrite length_app, C3, C2, C1. simpl. lia.
Qed.



End Battery.



(** ** The battery over any transport *)

Section AnyTransport.

Context {N : Type} (urlOK : string → bool) (client : HttpClient N) (url : string).
Hypothesis url_ok : urlOK url = true.
Hypothesis url_params_ok : ∀ params, urlOK (url +:+ "/?" +:+ params) = true.

Lemma header_probe_sent vbs name key e (w : world N) :
  name = "Range" ∨ name = "x-dolt-range" →
  (key, e) = (sampleRangeStart, 1001) ∨ (key, e) = (sampleRangeMid, 100)
  ∨ (key, e) = (sampleRangeEnd, 80) →
  ∃ req, sendWithHeader urlOK client url (name +:+ ": " +:+ key) vbs w
         = send client req vbs w.
Proof.
  intros Hname Hkey.
  assert (Split (name +:+ ": " +:+ key) ":" = [name; " " +:+ key]
          ∧ supportedHeader (TrimSpace name) = true) as [Hs Hk].
  { destruct Hname as [-> | ->], Hkey as [[= -> _]|[[= -> _]|[= -> _]]]; by vm_compute. }
  rewrite (sendWithHeader_accepts urlOK _ url _ vbs w _ _ url_ok Hs Hk). eauto.
Qed.

Lemma probeEach_no_error arg
    (sendOne : string → world N → world N * (Z * Z * option clientError))
    what entries :
  (∀ key e w, (key, e) ∈ entries → (sendOne (arg key) w).2.2 = None) →
  ∀ w, (probeEach arg sendOne what url entries w).2 = None.
Proof.
  intros Hall. induction entries as [|[key e] rest IH]; intros w; [done|].
  cbn [probeEach]. pose proof (Hall key e w ltac:(left)) as H.
  destruct (sendOne (arg key) w) as [w1 [[st ln] err]]. simpl in H. subst err.
  apply IH. intros key' e' w' Hin. apply (Hall key' e'). by right.
Qed.


(** X16: a request that fails ends the battery at once: over a
    transport on which every request fails, [sendSamples] makes one request,
    prints no report and returns the error of that request. *)
Theorem battery_stops_at_failure (vbs : bool) (msg : string)
    (order1 order2 order3 : list (string * Z)) (w : world N) :
  (∀ req n, (Do client req n).2 = inr msg) →
  order1 ≡ₚ map_to_list sampleRanges →
  ∃ req, sendSamples urlOK client order1 order2 order3 url vbs w
         = (mkWorld (Do client req (net w)).1 (reports w), Some (errTransport msg)).
Proof.
  intros Hdo H1.
  destruct order1 as [|[key e] rest].
  { apply Permutation_length in H1. rewrite length_map_to_list in H1.
    vm_compute in H1. discriminate. }
  destruct (header_probe_sent vbs "Range" key e w ltac:(by left)
              (sampleRanges_elem _ key e H1 ltac:(left))) as [req Hreq].
  exists req. unfold sendSamples. cbn [probeEach].
  change ("Range: " +:+ key) with ("Range" +:+ ": " +:+ key). rewrite Hreq.
  unfold send. pose proof (Hdo req (net w)) as H.
  destruct (Do client req (net w)) as [n [res|m]]; simpl in H; [done|].
  by injection H as ->.
Qed.

End AnyTransport.


Lemma battery_stops_at_failure_witness :
  ∃ req,
    sendSamples anyURL (mkHttpClient (λ r (n : nat), (S n, inr "connection refused")))
      (map_to_list sampleRanges) (map_to_list sampleRanges) (map_to_list sampleParams)
      "http://localhost:1709" false (mkWorld 0%nat [])
    = (mkWorld (Do (mkHttpClient (λ r (n : nat), (S n, inr "connection refused"))) req 0%nat).1
         [], Some (errTransport "connection refused")).
Proof.
  apply (battery_stops_at_failure anyURL
           (mkHttpClient (λ r (n : nat), (S n, inr "connection refused")))
           "http://localhost:1709" eq_refl false "connection refused"
           (map_to_list sampleRanges) (map_to_list sampleRanges)
           (map_to_list sampleParams) (mkWorld 0%nat [])); [|reflexivity].
  intros req n. reflexivity.
Defined.

(** * Printing a number and parsing it again *)

Lemma valueFrom_app a : ∀ b n, valueFrom n (a +:+ b) = valueFrom (valueFrom n a) b.
Proof. induction a as [|c r IH]; intros b n; unfold_app; [done|]. simpl. apply IH. Qed.

Lemma pretty_N_char_digit x :
  (x < 10)%N →
  isDigit (pretty_N_char x) = true ∧ byteOf (pretty_N_char x) - 48 = Z.of_N x.
Proof.
  intros Hx.
  assert (x = 0 ∨ x = 1 ∨ x = 2 ∨ x = 3 ∨ x = 4 ∨ x = 5 ∨ x = 6 ∨ x = 7 ∨ x = 8 ∨ x = 9)%N
    as H by lia.
  repeat (destruct H as [->|H]; [by vm_compute|]). subst. by vm_compute.
Qed.

Lemma pretty_N_go_digits x : ∀ s,
  ∃ d, pretty_N_go x s = d +:+ s ∧ allDigits d = true
       ∧ (∀ n, valueFrom n d = n * 10 ^ Z.of_nat (String.length d) + Z.of_N x)
       ∧ ((0 < x)%N → d ≠ "").
Proof.
  induction (N.lt_wf_0 x) as [x _ IH]. intros s.
  destruct (decide (x = 0)%N) as [->|Hx].
  { exists "". rewrite pretty_N_go_0. split_and!; [done|done| |lia].
    intros n. simpl. lia. }
  rewrite pretty_N_go_step by lia.
  destruct (IH (x `div` 10)%N ltac:(apply N.div_lt; lia)
              (String (pretty_N_char (x `mod` 10)) s)) as (d & -> & Hd & Hv & _).
  destruct (pretty_N_char_digit (x `mod` 10)%N ltac:(apply N.mod_lt; lia)) as [Hc Hb].
  exists (d +:+ String (pretty_N_char (x `mod` 10)) "").
  split_and!.
  - by rewrite app_assoc_string.
  - rewrite allChars_app, Hd. simpl. by rewrite Hc.
  - intros n. rewrite valueFrom_app, Hv. simpl. rewrite Hb.
    assert (String.length (d +:+ String (pretty_N_char (x `mod` 10)) "")
            = S (String.length d)) as ->.
    { clear. induction d as [|c r IH]; unfold_app; [done|]. simpl. by rewrite IH. }
    rewrite Nat2Z.inj_succ, Z.pow_succ_r by lia.
    pose proof (N.div_mod x 10 ltac:(lia)) as Hdm.
    apply (f_equal Z.of_N) in Hdm. rewrite N2Z.inj_add, N2Z.inj_mul in Hdm.
    change (Z.of_N 10) with 10 in Hdm. lia.
  - intros _. by destruct d.
Qed.

Lemma FormatInt_digits z :
  0 <= z → isDIGITS (FormatInt z) = true ∧ decimalValue (FormatInt z) = z.
Proof.
  intros Hz. destruct z as [|p|p]; [done| |lia].
  unfold FormatInt, pretty, pretty_Z, pretty, pretty_positive, pretty, pretty_N.
  destruct (decide (N.pos p = 0%N)); [done|].
  destruct (pretty_N_go_digits (N.pos p) "") as (d & -> & Hd & Hv & Hne).
  rewrite app_empty_r. unfold isDIGITS, decimalValue. rewrite Hd, Hv.
  split; [|simpl; lia].
  specialize (Hne ltac:(lia)). by destruct d.
Qed.

(** X17: the range a 206 response declares can be asked for again: when
    the body is not empty, a request with the full form made of the first and
    the last index of its [Content-Range] header gets the very same response,
    whatever form the first request had. *)
Theorem declared_range_round_trip (tls : bool) (c : inMemContents) (vbs : bool)
    (req : Request) (resp : Response) :
  handle (connWriter tls) c vbs req = Returned resp →
  StatusCode resp = StatusPartialContent → Body resp ≠ [] →
  ∃ first last,
    RespHeader resp !! "Content-Range" = Some [contentRange first last (Len c)]
    ∧ Z.of_nat (length (Body resp)) = last - first + 1
    ∧ ∀ req', carries req' (specifier (FormatInt first) (FormatInt last)) →
              handle (connWriter tls) c vbs req' = Returned resp.
Proof.
  rewrite handle_response. intros [= <-]. unfold expectedResponse.
  destruct (String.eqb (Method req) MethodGet); simpl negb; cbv iota; [|done].
  cbv zeta. fold (acceptRanges tls).
  destruct (String.eqb (selectSpecifier req) ""); [done|].
  destruct (rangeResponse_cases (acceptRanges tls) c (selectSpecifier req))
    as [-> | (o & l & Hp & Hr & ->)]; [done|].
  intros _ Hbody.
  destruct (inRange_exact _ _ _ _ Hp Hr) as (Hsum & Ho & Hl & Hle).
  destruct (ReadRange_inRange _ _ _ Hr) as [_ Hlen]. rewrite Hsum in Hlen.
  assert (Body (partialContent (acceptRanges tls) c o l)
          = take (Z.to_nat (o + l - o)) (drop (Z.to_nat o) (contents c))) as HB.
  { unfold partialContent. cbn [Body]. cbv zeta. by rewrite Hsum. }
  assert (0 < l) as Hpos.
  { destruct (decide (l = 0)) as [->|]; [|lia]. exfalso. apply Hbody.
    rewrite HB. replace (o + 0 - o) with 0 by lia. done. }
  pose proof (Len_range c).
  assert (int64 (int64 (o + l) - 1) = o + l - 1) as HE.
  { rewrite Hsum. apply int64_small. lia. }
  exists o, (o + l - 1). split_and!.
  - by destruct (partial_headers tls c o l HE) as [-> _].
  - rewrite HB, Hlen. lia.
  - intros req' Hc.
    destruct (FormatInt_digits o Ho) as [Da Va].
    destruct (FormatInt_digits (o + l - 1) ltac:(lia)) as [Db Vb].
    destruct (full_form_served tls c vbs req' _ _ Da Db Hc) as (-> & _ & _);
      [lia|lia|].
    rewrite Va, Vb. do 2 f_equal. lia.
Qed.

Lemma declared_range_round_trip_witness :
  ∃ resp first last,
    httpHandler false (mkRequest "GET" {[ "Range" := ["bytes=-80"] ]} ∅) = Returned resp
    ∧ RespHeader resp !! "Content-Range" = Some [contentRange first last 4000]
    ∧ ∀ req', carries req' (specifier (FormatInt first) (FormatInt last)) →
              httpHandler false req' = Returned resp.
Proof.
  destruct (handle (connWriter false) newContents false
              (mkRequest "GET" {[ "Range" := ["bytes=-80"] ]} ∅)) as [resp|] eqn:E;
    [|by vm_compute in E].
  destruct (declared_range_round_trip false newContents false _ resp E)
    as (first & last & H1 & _ & H2).
  - vm_compute in E. by injection E as <-.
  - vm_compute in E. by injection E as <-.
  - exists resp, first, last. done.
Defined.

(** * A query parameter on its way to the server *)

Lemma Split_without sep s : hasByte sep s = false → Split s sep = [s].
Proof.
  induction s as [|c r IH]; [done|]. simpl. intros H.
  apply orb_false_iff in H as [Hc Hr]. by rewrite Hc, (IH Hr).
Qed.

Lemma hasByte_app b x y : hasByte b (x +:+ y) = hasByte b x || hasByte b y.
Proof. induction x as [|c r IH]; unfold_app; [done|]. simpl. by rewrite IH, orb_assoc. Qed.


